(** * Motion-vector extraction and fusion pipeline

    Shallow embedding of [motion-vectors/basic/motion_vector_extractor.py]
    (class [MotionVectorExtractor]) and the properties of its per-frame
    fusion pipeline.

    Python floats are modelled as real numbers (exact arithmetic), Python
    and numpy integers as [Z], exceptions as the [Raise] outcome of a small
    error monad.  The OpenCV calls are an interface ([Cv2]) over an abstract
    image type: the pipeline is verified for every implementation of it. *)

From Stdlib Require Import Reals Lra Lia ZArith List String Bool.
From Stdlib Require Import Sorting.Sorted Sorting.Permutation.
Import ListNotations.

Open Scope R_scope.

(** ** Exceptions *)

Inductive result (A : Type) : Type :=
| Ok (a : A)
| Raise (exn : string).

Arguments Ok {A} a.
Arguments Raise {A} exn.

Definition bind {A B : Type} (c : result A) (k : A -> result B) : result B :=
  match c with
  | Ok a => k a
  | Raise e => Raise e
  end.

Notation "x <- c ;; k" := (bind c (fun x => k))
  (at level 61, c at next level, right associativity).

(** A [for] loop whose body may raise and which extends a list. *)
Fixpoint for_extend {A B : Type} (body : A -> result (list B)) (l : list A)
  : result (list B) :=
  match l with
  | [] => Ok []
  | a :: rest =>
      bs <- body a ;;
      more <- for_extend body rest ;;
      Ok (bs ++ more)
  end.

(** ** Numbers *)

(** Python's [int(x)] on a float: truncation toward zero. *)
Definition int (x : R) : Z :=
  if Rle_dec 0 x then Int_part x else (- Int_part (- x))%Z.

(** Python's [range(start, stop, step)] for a positive step. *)
Definition range (start stop step : Z) : list Z :=
  map (fun k => (start + Z.of_nat k * step)%Z)
      (seq 0 (Z.to_nat ((stop - start + step - 1) / step))).

(** [np.sqrt(dx*dx + dy*dy)] *)
Definition hypot (dx dy : R) : R := sqrt (dx * dx + dy * dy).

(** [np.arctan2(y, x)] *)
Definition arctan2 (y x : R) : R :=
  if Rlt_dec 0 x then atan (y / x)
  else if Rlt_dec x 0 then
    if Rle_dec 0 y then atan (y / x) + PI else atan (y / x) - PI
  else if Rlt_dec 0 y then PI / 2
  else if Rlt_dec y 0 then - (PI / 2)
  else 0.

(** [np.radians] *)
Definition radians (deg : R) : R := deg * PI / 180.

(** ** Data model *)

Inductive Method : Type := ffmpeg | flow | edge.

(** The dictionaries appended to [vectors] by the three extractors.  The
    method-specific last key ([area], [flow_magnitude], [original_length])
    is the field [evidence]. *)
Record Vector : Type := {
  center : Z * Z;
  direction : R * R;
  magnitude : R;
  angle : R;
  quality : R;
  confidence : R;
  method : Method;
  evidence : R
}.

(** [self.params] *)
Record Params : Type := {
  max_vector_length : R;
  optimal_length : R;
  min_vector_length : R;
  ffmpeg_scale : R;
  flow_scale : R;
  edge_scale : R;
  quality_threshold : R;
  confidence_threshold : R;
  max_vectors_per_frame : nat
}.

Record MotionVectorExtractor : Type := {
  use_gpu : bool;
  params : Params
}.

(** [MotionVectorExtractor.__init__]: no argument besides [self]; the
    parameters are literals. *)
Definition init (GPU_AVAILABLE : bool) : MotionVectorExtractor :=
  {| use_gpu := GPU_AVAILABLE;
     params := {| max_vector_length := 18;
                  optimal_length := 12;
                  min_vector_length := 4;
                  ffmpeg_scale := 0.4;
                  flow_scale := 0.25;
                  edge_scale := 0.5;
                  quality_threshold := 0.3;
                  confidence_threshold := 0.4;
                  max_vectors_per_frame := 50 |} |}.

(** ** OpenCV interface *)

(** One contour of a green mask, with what the code asks OpenCV about it:
    [cv2.contourArea], [cv2.moments], [len(contour)] and [cv2.fitEllipse]
    (of which only the axes [(width, height)] and the angle in degrees are
    used). *)
Record Contour : Type := {
  contourArea : R;
  m00 : R;
  m10 : R;
  m01 : R;
  len : nat;
  fitEllipse : result (R * R * R)
}.

(** A dense flow field: [flow.shape[:2]] and [flow[y, x]]. *)
Record Flow : Type := {
  flow_shape : Z * Z;
  flow_at : Z -> Z -> R * R
}.

Record Cv2 (Image : Type) : Type := {
  (** [cv2.imread]: [None] when the file cannot be decoded *)
  imread : string -> option Image;
  (** [frame.shape[:2]], that is [(h, w)] *)
  shape : Image -> Z * Z;
  (** [cv2.resize(frame, (new_w, new_h))] *)
  resize : Image -> Z * Z -> result Image;
  (** [cv2.cvtColor(frame, cv2.COLOR_BGR2HSV)] *)
  cvtColor_HSV : Image -> result unit;
  (** [cv2.inRange], [cv2.countNonZero] and [cv2.findContours] for the
      green range of the given index (no contour on an empty mask) *)
  findContours : Image -> nat -> result (list Contour);
  (** [cv2.cvtColor(frame, cv2.COLOR_BGR2GRAY)] *)
  cvtColor_GRAY : Image -> result unit;
  (** [cv2.calcOpticalFlowFarneback] between the rolled gray frame and the
      gray frame *)
  calcOpticalFlowFarneback : Image -> result Flow;
  (** [cv2.Canny] followed by [cv2.HoughLinesP]: [None] when no line is
      found, else the segments [(x1, y1, x2, y2)] *)
  HoughLinesP : Image -> result (option (list (Z * Z * Z * Z)))
}.

Arguments imread {Image} _ _.
Arguments shape {Image} _ _.
Arguments resize {Image} _ _ _.
Arguments cvtColor_HSV {Image} _ _.
Arguments findContours {Image} _ _ _.
Arguments cvtColor_GRAY {Image} _ _.
Arguments calcOpticalFlowFarneback {Image} _ _.
Arguments HoughLinesP {Image} _ _.

(** ** The extractors *)

(** "Apply length constraints": the block repeated in the three extractors.
    Returns the constrained [(dx, dy)] and [vector_length]. *)
Definition apply_length_constraints (p : Params) (dx dy : R) : R * R * R :=
  let vector_length := hypot dx dy in
  if Rgt_dec vector_length (max_vector_length p) then
    let scale := max_vector_length p / vector_length in
    (dx * scale, dy * scale, max_vector_length p)
  else (dx, dy, vector_length).

Section Extractors.

Context {Image : Type}.
Variable cv2 : Cv2 Image.
Variable self : MotionVectorExtractor.

(** Body of [for contour in contours] in [extract_ffmpeg_vectors]. *)
Definition ffmpeg_contour (range_idx : nat) (contour : Contour)
  : result (list Vector) :=
  let area := contourArea contour in
  if Rle_dec 2 area then
    if Rle_dec area 50 then
      if Rgt_dec (m00 contour) 0 then
        let cx := int (m10 contour / m00 contour) in
        let cy := int (m01 contour / m00 contour) in
        if (5 <=? len contour)%nat then
          ellipse <- fitEllipse contour ;;
          let '(width, height, angle) := ellipse in
          let magnitude := Rmax width height * ffmpeg_scale (params self) in
          let angle_rad := radians angle in
          let dx := magnitude * cos angle_rad in
          let dy := magnitude * sin angle_rad in
          let '(dx, dy, vector_length) :=
            apply_length_constraints (params self) dx dy in
          if Rge_dec vector_length (min_vector_length (params self)) then
            let confidence := 0.9 - INR range_idx * 0.1 in
            Ok [ {| center := (cx, cy);
                    direction := (dx, dy);
                    magnitude := vector_length;
                    angle := angle_rad;
                    quality := Rmin (area / 50) 1;
                    confidence := confidence;
                    method := ffmpeg;
                    evidence := area |} ]
          else Ok []
        else Ok []
      else Ok []
    else Ok []
  else Ok [].

(** The three entries of [green_ranges], by index. *)
Definition green_ranges : list nat := [0; 1; 2]%nat.

Definition extract_ffmpeg_vectors (frame : Image) : result (list Vector) :=
  _ <- cvtColor_HSV cv2 frame ;;
  for_extend
    (fun range_idx =>
       contours <- findContours cv2 frame range_idx ;;
       for_extend (ffmpeg_contour range_idx) contours)
    green_ranges.

(** Body of the grid loops in [extract_optical_flow_vectors]. *)
Definition flow_sample (fl : Flow) (y x : Z) : list Vector :=
  let '(fx, fy) := flow_at fl y x in
  let magnitude := hypot fx fy in
  if Rgt_dec magnitude 0.8 then
    let dx := fx * flow_scale (params self) in
    let dy := fy * flow_scale (params self) in
    let '(dx, dy, vector_length) :=
      apply_length_constraints (params self) dx dy in
    if Rge_dec vector_length (min_vector_length (params self)) then
      [ {| center := (x, y);
           direction := (dx, dy);
           magnitude := vector_length;
           angle := arctan2 fy fx;
           quality := Rmin (magnitude / 4) 1;
           confidence := 0.7;
           method := flow;
           evidence := magnitude |} ]
    else []
  else [].

Definition step : Z := 25.

Definition extract_optical_flow_vectors (frame : Image)
  : result (list Vector) :=
  _ <- cvtColor_GRAY cv2 frame ;;
  (* try: *)
  match calcOpticalFlowFarneback cv2 frame with
  | Ok fl =>
      let '(h, w) := flow_shape fl in
      Ok (flat_map
            (fun y => flat_map (fun x => flow_sample fl y x)
                               (range step (w - step) step))
            (range step (h - step) step))
  (* except Exception: the message is printed, [vectors] is still empty *)
  | Raise _ => Ok []
  end.

(** Body of [for line in lines] in [extract_edge_vectors]. *)
Definition edge_line (line : Z * Z * Z * Z) : list Vector :=
  let '(x1, y1, x2, y2) := line in
  let cx := ((x1 + x2) / 2)%Z in
  let cy := ((y1 + y2) / 2)%Z in
  let dx := (x2 - x1)%Z in
  let dy := (y2 - y1)%Z in
  let original_length := sqrt (IZR (dx * dx + dy * dy)) in
  let dx := IZR dx * edge_scale (params self) in
  let dy := IZR dy * edge_scale (params self) in
  let '(dx, dy, vector_length) :=
    apply_length_constraints (params self) dx dy in
  if Rge_dec vector_length (min_vector_length (params self)) then
    [ {| center := (cx, cy);
         direction := (dx, dy);
         magnitude := vector_length;
         angle := arctan2 dy dx;
         quality := Rmin (original_length / 30) 1;
         confidence := 0.6;
         method := edge;
         evidence := original_length |} ]
  else [].

Definition extract_edge_vectors (frame : Image) : result (list Vector) :=
  _ <- cvtColor_GRAY cv2 frame ;;
  lines <- HoughLinesP cv2 frame ;;
  match lines with
  | Some lines => Ok (flat_map edge_line lines)
  | None => Ok []
  end.

(** ** Fusion of the three methods *)

(** "Extract vectors using all methods": the three [extend] calls. *)
Definition all_methods (frame_resized : Image) : result (list Vector) :=
  ffmpeg_vectors <- extract_ffmpeg_vectors frame_resized ;;
  flow_vectors <- extract_optical_flow_vectors frame_resized ;;
  edge_vectors <- extract_edge_vectors frame_resized ;;
  Ok (ffmpeg_vectors ++ flow_vectors ++ edge_vectors).

(** Body of the loop "Scale vectors back to original size". *)
Definition scale_vector (scale_back : R) (vector : Vector) : Vector :=
  let '(cx, cy) := center vector in
  let '(dx, dy) := direction vector in
  {| center := (int (IZR cx * scale_back), int (IZR cy * scale_back));
     direction := (dx * scale_back * 0.8, dy * scale_back * 0.8);
     magnitude := magnitude vector * (scale_back * 0.8);
     angle := angle vector;
     quality := quality vector;
     confidence := confidence vector;
     method := method vector;
     evidence := evidence vector |}.

Definition scale_vectors_back (scale_back : R) (all_vectors : list Vector)
  : list Vector :=
  if Req_dec_T scale_back 1 then all_vectors
  else map (scale_vector scale_back) all_vectors.

(** "Filter by quality and confidence" *)
Definition passes_thresholds (vector : Vector) : bool :=
  if Rge_dec (quality vector) (quality_threshold (params self)) then
    if Rge_dec (confidence vector) (confidence_threshold (params self))
    then true else false
  else false.

Definition filter_vectors (all_vectors : list Vector) : list Vector :=
  filter passes_thresholds all_vectors.

End Extractors.

(** "Sort by combined score": [scored_vectors.sort(key=lambda x: x[0],
    reverse=True)].  Python's sort is stable, also with [reverse=True]:
    entries with equal keys keep their order.  Insertion from the right
    with a strict test is such a sort. *)
Fixpoint insert_scored (x : R * Vector) (l : list (R * Vector))
  : list (R * Vector) :=
  match l with
  | [] => [x]
  | y :: rest =>
      if Rgt_dec (fst y) (fst x) then y :: insert_scored x rest
      else x :: y :: rest
  end.

Definition sort_reverse (l : list (R * Vector)) : list (R * Vector) :=
  fold_right insert_scored [] l.

Definition scored_vectors (filtered_vectors : list Vector)
  : list (R * Vector) :=
  sort_reverse
    (map (fun v => (quality v * confidence v, v)) filtered_vectors).

(** "Remove duplicates" *)
Definition dist (a b : Z * Z) : R :=
  sqrt (IZR ((fst a - fst b) ^ 2 + (snd a - snd b) ^ 2)).

(** The inner loop over [final_vectors], with its [break]. *)
Definition is_duplicate (vector : Vector) (final_vectors : list Vector)
  : bool :=
  existsb (fun existing =>
             if Rlt_dec (dist (center vector) (center existing)) 15
             then true else false)
          final_vectors.

(** The outer loop over [scored_vectors], from the current
    [final_vectors]; it stops at the [break]. *)
Fixpoint remove_duplicates_from (max_vectors : nat)
    (scored : list (R * Vector)) (final_vectors : list Vector)
  : list Vector :=
  match scored with
  | [] => final_vectors
  | (_, vector) :: rest =>
      if is_duplicate vector final_vectors then
        remove_duplicates_from max_vectors rest final_vectors
      else
        let final_vectors := final_vectors ++ [vector] in
        if (max_vectors <=? List.length final_vectors)%nat then final_vectors
        else remove_duplicates_from max_vectors rest final_vectors
  end.

Definition remove_duplicates (max_vectors : nat) (scored : list (R * Vector))
  : list Vector :=
  remove_duplicates_from max_vectors scored [].

(** ** Frame statistics and the per-frame result *)

Definition Method_eqb (a b : Method) : bool :=
  match a, b with
  | ffmpeg, ffmpeg | flow, flow | edge, edge => true
  | _, _ => false
  end.

(** [method_counts.get(method, 0)] *)
Fixpoint get (counts : list (Method * nat)) (m : Method) (default : nat)
  : nat :=
  match counts with
  | [] => default
  | (k, n) :: rest => if Method_eqb k m then n else get rest m default
  end.

(** [method_counts[method] = n]: a present key keeps its place, a new key
    goes last. *)
Fixpoint setitem (counts : list (Method * nat)) (m : Method) (n : nat)
  : list (Method * nat) :=
  match counts with
  | [] => [(m, n)]
  | (k, n0) :: rest =>
      if Method_eqb k m then (k, n) :: rest else (k, n0) :: setitem rest m n
  end.

Definition method_counts (final_vectors : list Vector)
  : list (Method * nat) :=
  fold_left (fun counts vector =>
               setitem counts (method vector)
                       (get counts (method vector) 0 + 1)%nat)
            final_vectors [].

Record Stats : Type := {
  stats_min : R;
  stats_max : R;
  stats_avg : R
}.

(** [np.mean] *)
Definition mean (l : list R) : R :=
  fold_right Rplus 0 l / INR (List.length l).

(** [{'min': min(l) if l else 0, 'max': max(l) if l else 0,
      'avg': np.mean(l) if l else 0}] *)
Definition stats_of (l : list R) : Stats :=
  match l with
  | [] => {| stats_min := 0; stats_max := 0; stats_avg := 0 |}
  | x :: rest =>
      {| stats_min := fold_left Rmin rest x;
         stats_max := fold_left Rmax rest x;
         stats_avg := mean l |}
  end.

(** The dictionary returned by [extract_motion_vectors_from_frame].  A key
    other than ['vectors'] may be missing: [None]. *)
Record FrameResult : Type := {
  vectors : list Vector;
  error : option string;
  frame_path : option string;
  frame_size : option (Z * Z);
  total_vectors : option nat;
  method_distribution : option (list (Method * nat));
  length_stats : option Stats;
  quality_stats : option Stats
}.

(** The dictionary returned when the frame is not loaded. *)
Definition error_result : FrameResult :=
  {| vectors := [];
     error := Some "Could not load frame"%string;
     frame_path := None;
     frame_size := None;
     total_vectors := None;
     method_distribution := None;
     length_stats := None;
     quality_stats := None |}.

(** "Calculate statistics" and the dictionary returned at the end. *)
Definition success_result (path : string) (w h : Z)
    (final_vectors : list Vector) : FrameResult :=
  let lengths := map magnitude final_vectors in
  let qualities := map quality final_vectors in
  {| vectors := final_vectors;
     error := None;
     frame_path := Some path;
     frame_size := Some (w, h);
     total_vectors := Some (List.length final_vectors);
     method_distribution := Some (method_counts final_vectors);
     length_stats := Some (stats_of lengths);
     quality_stats := Some (stats_of qualities) |}.

Section Pipeline.

Context {Image : Type}.
Variable cv2 : Cv2 Image.
Variable self : MotionVectorExtractor.

(** From the scaling back to the deduplication. *)
Definition fuse (scale_back : R) (all_vectors : list Vector) : list Vector :=
  let all_vectors := scale_vectors_back scale_back all_vectors in
  let filtered_vectors := filter_vectors self all_vectors in
  remove_duplicates (max_vectors_per_frame (params self))
                    (scored_vectors filtered_vectors).

(** "Resize for processing efficiency": the frame to work on and
    [scale_back]. *)
Definition resize_for_processing (frame : Image) : result (Image * R) :=
  let '(h, w) := shape cv2 frame in
  if (600 <? Z.max h w)%Z then
    let scale := 600 / IZR (Z.max h w) in
    let new_w := int (IZR w * scale) in
    let new_h := int (IZR h * scale) in
    frame_resized <- resize cv2 frame (new_w, new_h) ;;
    Ok (frame_resized, IZR (Z.max h w) / 600)
  else Ok (frame, 1).

Definition extract_motion_vectors_from_frame (path : string)
  : result FrameResult :=
  match imread cv2 path with
  | None => Ok error_result
  | Some frame =>
      let '(h, w) := shape cv2 frame in
      resized <- resize_for_processing frame ;;
      let '(frame_resized, scale_back) := resized in
      all_vectors <- all_methods cv2 self frame_resized ;;
      let final_vectors := fuse scale_back all_vectors in
      Ok (success_result path w h final_vectors)
  end.

(** [process_all_frames], on the paths that [find_motion_vector_frames]
    returned: the loop that fills [results] (the printing is left out). *)
Definition process_all_frames (frame_paths : list string)
  : result (list FrameResult) :=
  match frame_paths with
  | [] => Ok []
  | _ =>
      for_extend
        (fun path =>
           frame_result <- extract_motion_vectors_from_frame path ;;
           Ok [frame_result])
        frame_paths
  end.

End Pipeline.

(** ** Predicates on vectors *)

(** The stored [magnitude] is the norm of the stored [direction]. *)
Definition consistent (v : Vector) : Prop :=
  magnitude v = hypot (fst (direction v)) (snd (direction v)).

(** The norm of the direction is within the configured bounds. *)
Definition within_bounds (p : Params) (v : Vector) : Prop :=
  min_vector_length p <= hypot (fst (direction v)) (snd (direction v))
  /\ hypot (fst (direction v)) (snd (direction v)) <= max_vector_length p.

(** What every extractor guarantees for the vectors it appends. *)
Definition well_formed (p : Params) (v : Vector) : Prop :=
  consistent v /\ within_bounds p v.

(** What the three extractors append: a dictionary built from the outcome
    of "Apply length constraints", once the length passed the minimum, and
    tagged with the extractor's method. *)
Inductive appended (p : Params) (m : Method) : Vector -> Prop :=
| appended_intro (c : Z * Z) (dx dy dx' dy' l a q k e : R) :
    apply_length_constraints p dx dy = (dx', dy', l) ->
    l >= min_vector_length p ->
    appended p m {| center := c; direction := (dx', dy'); magnitude := l;
                    angle := a; quality := q; confidence := k;
                    method := m; evidence := e |}.

(** Priority of the methods: the order in which their lists are
    concatenated. *)
Definition method_rank (m : Method) : nat :=
  match m with ffmpeg => 0 | flow => 1 | edge => 2 end.

(** [a] may stand before [b] in the sorted list: a greater score, or the
    same score and a method of no lower priority. *)
Definition precedes (a b : R * Vector) : Prop :=
  fst a > fst b
  \/ (fst a = fst b
      /\ (method_rank (method (snd a)) <= method_rank (method (snd b)))%nat).

(** Two centers that the deduplication keeps both. *)
Definition apart (a b : Vector) : Prop :=
  15 <= dist (center a) (center b).

(** ** Concrete frames

    An implementation of the OpenCV interface for examples: a frame is
    given by its shape and by what OpenCV finds on the frame that is
    worked on (no contour, flow or line is recomputed by [resize], which
    only changes the shape and refuses an empty size). *)

Record Frame : Type := {
  frame_shape : Z * Z;
  frame_contours : nat -> result (list Contour);
  frame_flow : result Flow;
  frame_lines : result (option (list (Z * Z * Z * Z)))
}.

Definition cv2_of (files : string -> option Frame) : Cv2 Frame :=
  {| imread := files;
     shape := frame_shape;
     resize := fun frame size =>
       let '(new_w, new_h) := size in
       if ((0 <? new_w) && (0 <? new_h))%Z then
         Ok {| frame_shape := (new_h, new_w);
               frame_contours := frame_contours frame;
               frame_flow := frame_flow frame;
               frame_lines := frame_lines frame |}
       else Raise "cv2.error: resize";
     cvtColor_HSV := fun _ => Ok tt;
     findContours := frame_contours;
     cvtColor_GRAY := fun _ => Ok tt;
     calcOpticalFlowFarneback := frame_flow;
     HoughLinesP := frame_lines |}.

(** A directory: the images that [cv2.imread] can decode, by path. *)
Fixpoint directory (entries : list (string * Frame)) (path : string)
  : option Frame :=
  match entries with
  | [] => None
  | (name, frame) :: rest =>
      if String.eqb path name then Some frame else directory rest path
  end.

(** A flow field without motion. *)
Definition still (h w : Z) : Flow :=
  {| flow_shape := (h, w); flow_at := fun _ _ => (0, 0) |}.

(** A 40 x 40 frame with two short segments whose midpoints are 15 pixels
    apart, and the two vectors of the edge extractor for them. *)
Definition two_segments : Frame :=
  {| frame_shape := (40, 40)%Z;
     frame_contours := fun _ => Ok [];
     frame_flow := Ok (still 40 40);
     frame_lines := Ok (Some [(0, 0, 6, 8); (15, 0, 21, 8)]%Z) |}.

Definition seg_a : Vector :=
  {| center := (3, 4)%Z; direction := (3, 4); magnitude := 5;
     angle := arctan2 4 3; quality := 1 / 3; confidence := 0.6;
     method := edge; evidence := 10 |}.

Definition seg_b : Vector :=
  {| center := (18, 4)%Z; direction := (3, 4); magnitude := 5;
     angle := arctan2 4 3; quality := 1 / 3; confidence := 0.6;
     method := edge; evidence := 10 |}.

Definition folder : string -> option Frame :=
  directory [("frame_0001.png"%string, two_segments)].

(** A 1200 x 1200 frame, worked on at 600 x 600, with one segment of
    length 30, and the vector of the edge extractor for it. *)
Definition large_frame : Frame :=
  {| frame_shape := (1200, 1200)%Z;
     frame_contours := fun _ => Ok [];
     frame_flow := Ok (still 600 600);
     frame_lines := Ok (Some [(0, 0, 18, 24)]%Z) |}.

Definition large_frame_resized : Frame :=
  {| frame_shape := (600, 600)%Z;
     frame_contours := fun _ => Ok [];
     frame_flow := Ok (still 600 600);
     frame_lines := Ok (Some [(0, 0, 18, 24)]%Z) |}.

Definition seg_long : Vector :=
  {| center := (9, 12)%Z; direction := (9, 12); magnitude := 15;
     angle := arctan2 12 9; quality := 1; confidence := 0.6;
     method := edge; evidence := 30 |}.

Definition large_folder : string -> option Frame :=
  directory [("large.png"%string, large_frame)].

(** A 40 x 40 frame with a green arrow, seen in the three green ranges,
    whose centroid is the midpoint of a detected segment; the vectors of
    the FFmpeg extractor for it, by range index. *)
Definition blob : Contour :=
  {| contourArea := 14; m00 := 14; m10 := 42; m01 := 56; len := 6;
     fitEllipse := Ok (12, 1.5, 0) |}.

Definition arrow_on_segment : Frame :=
  {| frame_shape := (40, 40)%Z;
     frame_contours := fun _ => Ok [blob];
     frame_flow := Ok (still 40 40);
     frame_lines := Ok (Some [(0, 0, 6, 8)]%Z) |}.

Definition arrow (k : R) : Vector :=
  {| center := (3, 4)%Z; direction := (4.8, 0); magnitude := 4.8;
     angle := radians 0; quality := 0.28; confidence := k;
     method := ffmpeg; evidence := 14 |}.

Definition arrow_folder : string -> option Frame :=
  directory [("arrow.png"%string, arrow_on_segment)].

(** A frame on which [cv2.HoughLinesP] raises, in a directory where a
    readable frame follows. *)
Definition hough_raises : Frame :=
  {| frame_shape := (40, 40)%Z;
     frame_contours := fun _ => Ok [];
     frame_flow := Ok (still 40 40);
     frame_lines := Raise "cv2.error: HoughLinesP" |}.

Definition failing_folder : string -> option Frame :=
  directory [("frame_0001.png"%string, hough_raises);
             ("frame_0002.png"%string, two_segments)].

(** ** Configurations *)

(** The same extractor with other thresholds. *)
Definition with_thresholds (self : MotionVectorExtractor) (qt ct : R)
  : MotionVectorExtractor :=
  {| use_gpu := use_gpu self;
     params := {| max_vector_length := max_vector_length (params self);
                  optimal_length := optimal_length (params self);
                  min_vector_length := min_vector_length (params self);
                  ffmpeg_scale := ffmpeg_scale (params self);
                  flow_scale := flow_scale (params self);
                  edge_scale := edge_scale (params self);
                  quality_threshold := qt;
                  confidence_threshold := ct;
                  max_vectors_per_frame :=
                    max_vectors_per_frame (params self) |} |}.

(** The same extractor after [self.params['min_vector_length'] = m]. *)
Definition with_min_vector_length (self : MotionVectorExtractor) (m : R)
  : MotionVectorExtractor :=
  {| use_gpu := use_gpu self;
     params := {| max_vector_length := max_vector_length (params self);
                  optimal_length := optimal_length (params self);
                  min_vector_length := m;
                  ffmpeg_scale := ffmpeg_scale (params self);
                  flow_scale := flow_scale (params self);
                  edge_scale := edge_scale (params self);
                  quality_threshold := quality_threshold (params self);
                  confidence_threshold := confidence_threshold (params self);
                  max_vectors_per_frame :=
                    max_vectors_per_frame (params self) |} |}.

(** ** The claims that the code does not meet, as they are stated *)

(** Lowering a threshold keeps every accepted vector. *)
Definition threshold_monotone : Prop :=
  forall (Image : Type) (cv2 : Cv2 Image) (self : MotionVectorExtractor)
         (qt ct : R) (path : string) (r_high r_low : FrameResult)
         (v : Vector),
    qt <= quality_threshold (params self) ->
    ct <= confidence_threshold (params self) ->
    extract_motion_vectors_from_frame cv2 self path = Ok r_high ->
    extract_motion_vectors_from_frame cv2 (with_thresholds self qt ct) path
    = Ok r_low ->
    In v (vectors r_high) -> In v (vectors r_low).

(** Two accepted centers are more than 15 pixels apart. *)
Definition strictly_apart : Prop :=
  forall (Image : Type) (cv2 : Cv2 Image) (self : MotionVectorExtractor)
         (path : string) (r : FrameResult) (i j : nat) (v1 v2 : Vector),
    extract_motion_vectors_from_frame cv2 self path = Ok r ->
    i <> j ->
    nth_error (vectors r) i = Some v1 ->
    nth_error (vectors r) j = Some v2 ->
    dist (center v1) (center v2) > 15.

(** ** Order-preserving selections *)

(** [l1] is [l2] with some entries left out. *)
Inductive subseq {A : Type} : list A -> list A -> Prop :=
| subseq_nil : subseq [] []
| subseq_skip (x : A) (l1 l2 : list A) : subseq l1 l2 -> subseq l1 (x :: l2)
| subseq_keep (x : A) (l1 l2 : list A) :
    subseq l1 l2 -> subseq (x :: l1) (x :: l2).

(** ** The report of [process_all_frames] on one frame *)

(** "Check length constraints": [constraint_ok], computed for a result
    without [error] key from its [length_stats]. *)
Definition constraint_ok (self : MotionVectorExtractor) (r : FrameResult)
  : option bool :=
  match error r, length_stats r with
  | None, Some st =>
      Some (if Rle_dec (stats_max st) (max_vector_length (params self))
            then true else false)
  | _, _ => None
  end.

(** The number of vectors of a method in a list. *)
Definition count_method (m : Method) (l : list Vector) : nat :=
  List.length (filter (fun v => Method_eqb (method v) m) l).

(** ** What the extractors append, in full *)

(** The dictionaries that the three extractors append, with the tests
    that lead to the [append]. *)
Inductive detected (p : Params) : Vector -> Prop :=
| detected_ffmpeg (range_idx : nat) (c : Contour)
    (width height ang dx dy l : R) :
    In range_idx green_ranges ->
    2 <= contourArea c <= 50 ->
    m00 c > 0 ->
    (5 <= len c)%nat ->
    fitEllipse c = Ok (width, height, ang) ->
    apply_length_constraints p
      (Rmax width height * ffmpeg_scale p * cos (radians ang))
      (Rmax width height * ffmpeg_scale p * sin (radians ang))
    = (dx, dy, l) ->
    l >= min_vector_length p ->
    detected p {| center := (int (m10 c / m00 c), int (m01 c / m00 c));
                  direction := (dx, dy);
                  magnitude := l;
                  angle := radians ang;
                  quality := Rmin (contourArea c / 50) 1;
                  confidence := 0.9 - INR range_idx * 0.1;
                  method := ffmpeg;
                  evidence := contourArea c |}
| detected_flow (fl : Flow) (y x : Z) (fx fy dx dy l : R) :
    In y (range step (fst (flow_shape fl) - step) step) ->
    In x (range step (snd (flow_shape fl) - step) step) ->
    flow_at fl y x = (fx, fy) ->
    hypot fx fy > 0.8 ->
    apply_length_constraints p (fx * flow_scale p) (fy * flow_scale p)
    = (dx, dy, l) ->
    l >= min_vector_length p ->
    detected p {| center := (x, y);
                  direction := (dx, dy);
                  magnitude := l;
                  angle := arctan2 fy fx;
                  quality := Rmin (hypot fx fy / 4) 1;
                  confidence := 0.7;
                  method := flow;
                  evidence := hypot fx fy |}
| detected_edge (x1 y1 x2 y2 : Z) (dx dy l : R) :
    apply_length_constraints p
      (IZR (x2 - x1) * edge_scale p) (IZR (y2 - y1) * edge_scale p)
    = (dx, dy, l) ->
    l >= min_vector_length p ->
    detected p
      {| center := (((x1 + x2) / 2)%Z, ((y1 + y2) / 2)%Z);
         direction := (dx, dy);
         magnitude := l;
         angle := arctan2 dy dx;
         quality :=
           Rmin (sqrt (IZR ((x2 - x1) * (x2 - x1) + (y2 - y1) * (y2 - y1)))
                 / 30) 1;
         confidence := 0.6;
         method := edge;
         evidence :=
           sqrt (IZR ((x2 - x1) * (x2 - x1) + (y2 - y1) * (y2 - y1))) |}.

(** The factor between the lengths at the working size and the returned
    lengths: [scale_back * 0.8] for a frame that is resized, else 1. *)
Definition length_factor (h w : Z) : R :=
  if (600 <? Z.max h w)%Z then IZR (Z.max h w) / 600 * 0.8 else 1.

(** A 60 x 60 frame in uniform motion: one grid point, at (25, 25), and
    the vector of the flow extractor for it. *)
Definition uniform_motion : Flow :=
  {| flow_shape := (60, 60)%Z; flow_at := fun _ _ => (12, 16) |}.

Definition moving : Frame :=
  {| frame_shape := (60, 60)%Z;
     frame_contours := fun _ => Ok [];
     frame_flow := Ok uniform_motion;
     frame_lines := Ok None |}.

Definition drift : Vector :=
  {| center := (25, 25)%Z; direction := (3, 4); magnitude := 5;
     angle := arctan2 16 12; quality := 1; confidence := 0.7;
     method := flow; evidence := 20 |}.

Definition moving_folder : string -> option Frame :=
  directory [("moving.png"%string, moving)].

(** ** [find_motion_vector_frames] *)

(** [needle in hay] on strings. *)
Fixpoint contains (needle hay : string) : bool :=
  String.prefix needle hay
  || match hay with
     | EmptyString => false
     | String _ rest => contains needle rest
     end.

(** [sorted] on a list of strings: ascending, by code points. *)
Fixpoint insert_path (x : string) (l : list string) : list string :=
  match l with
  | [] => [x]
  | y :: rest =>
      if String.ltb y x then y :: insert_path x rest else x :: y :: rest
  end.

Definition sorted (l : list string) : list string :=
  fold_right insert_path [] l.

(** [find_motion_vector_frames], on the list [all_frames] that
    [glob.glob] returns for the search pattern. *)
Definition find_motion_vector_frames (all_frames : list string)
  : list string :=
  sorted (filter (fun frame_path =>
                    negb (contains "detection_analysis" frame_path))
                 all_frames).

(** A frame on which [cv2.calcOpticalFlowFarneback] raises. *)
Definition flow_raises : Frame :=
  {| frame_shape := (40, 40)%Z;
     frame_contours := fun _ => Ok [];
     frame_flow := Raise "cv2.error: calcOpticalFlowFarneback";
     frame_lines := Ok (Some [(0, 0, 6, 8); (15, 0, 21, 8)]%Z) |}.

Definition flow_raises_folder : string -> option Frame :=
  directory [("frame_0001.png"%string, flow_raises)].

(** ** The corpus statistics of [process_all_frames] *)

(** ['error' not in r] *)
Definition no_error (r : FrameResult) : bool :=
  match error r with None => true | Some _ => false end.

(** [valid_results = [r for r in results if 'error' not in r]] *)
Definition valid_results (results : list FrameResult) : list FrameResult :=
  filter no_error results.

(** [sum(r['total_vectors'] for r in valid_results)]: a missing key is a
    [KeyError]. *)
Fixpoint sum_total_vectors (valid : list FrameResult) : result nat :=
  match valid with
  | [] => Ok 0%nat
  | r :: rest =>
      match total_vectors r with
      | Some n => s <- sum_total_vectors rest ;; Ok (n + s)%nat
      | None => Raise "KeyError: 'total_vectors'"
      end
  end.

(** The loop that fills [all_lengths] and [all_methods]: over the vectors
    of the valid results, in order. *)
Definition all_lengths (valid : list FrameResult) : list R :=
  flat_map (fun r => map magnitude (vectors r)) valid.

Definition all_method_counts (valid : list FrameResult)
  : list (Method * nat) :=
  method_counts (flat_map vectors valid).

(** "Within constraints": [sum(1 for l in all_lengths if l <=
    max_vector_length)]. *)
Definition within_constraints (self : MotionVectorExtractor)
    (valid : list FrameResult) : nat :=
  List.length
    (filter (fun l => if Rle_dec l (max_vector_length (params self))
                      then true else false)
            (all_lengths valid)).

(** ** [MotionVectorVisualizer] *)

(** [self.colors[method][0]] *)
Definition method_color (m : Method) : string :=
  match m with
  | ffmpeg => "#E74C3C"
  | flow => "#3498DB"
  | edge => "#2ECC71"
  end.

(** The arguments of one [FancyArrowPatch]. *)
Record Arrow : Type := {
  posA : Z * Z;
  posB : R * R;
  arrowstyle : string;
  mutation_scale : Z;
  color : string;
  alpha : R;
  linewidth : R
}.

(** What [create_vector_visualization] puts on the figure it saves: the
    arrows, the centers of the quality circles, the numbers of the
    statistics text, whether the status is "SHAPE PRESERVED", the legend
    entries and the path of the saved image. *)
Record Figure : Type := {
  arrows : list Arrow;
  quality_circles : list (Z * Z);
  shown_total : nat;
  shown_methods : list (Method * nat);
  shown_lengths : Stats;
  shape_preserved : bool;
  legend_elements : list (Method * nat);
  saved_to : string
}.

(** Body of [for vector in vectors]: the arrow of a vector. *)
Definition arrow_of (vector : Vector) : Arrow :=
  let '(x, y) := center vector in
  let '(dx, dy) := direction vector in
  {| posA := (x, y);
     posB := (IZR x + dx, IZR y + dy);
     arrowstyle := match method vector with
                   | ffmpeg | flow => "->"
                   | edge => "-"
                   end;
     mutation_scale := match method vector with
                       | ffmpeg => 12
                       | flow => 10
                       | edge => 8
                       end;
     color := method_color (method vector);
     alpha := quality vector * confidence vector * 0.9;
     linewidth := match method vector with
                  | ffmpeg => 2.5
                  | flow => 2.0
                  | edge => 1.5
                  end |}.

(** [quality * confidence > 0.8]: the vector gets a quality circle. *)
Definition high_quality (vector : Vector) : bool :=
  if Rgt_dec (quality vector * confidence vector) 0.8 then true else false.

(** [method in method_dist] *)
Definition has_key (counts : list (Method * nat)) (m : Method) : bool :=
  existsb (fun entry => Method_eqb (fst entry) m) counts.

(** The legend loop over [self.colors.items()]. *)
Definition legend_of (method_dist : list (Method * nat))
  : list (Method * nat) :=
  flat_map (fun m => if has_key method_dist m
                     then [(m, get method_dist m 0)] else [])
           [ffmpeg; flow; edge].

Section Visualizer.

Context {Image : Type}.
Variable cv2 : Cv2 Image.

(** The path of the saved image for a frame path:
    [str(self.output_dir / f"{Path(frame_path).stem}_extracted_vectors.png")]. *)
Variable output_path : string -> string.

(** [create_vector_visualization]: [None], or the figure that is saved
    (its path is what the method returns).  Reading a key that the
    dictionary does not have is a [KeyError]. *)
Definition create_vector_visualization (extraction_result : FrameResult)
  : result (option Figure) :=
  match error extraction_result with
  | Some _ => Ok None
  | None =>
      match frame_path extraction_result with
      | None => Raise "KeyError: 'frame_path'"
      | Some path =>
          match vectors extraction_result with
          | [] => Ok None
          | _ :: _ =>
              match imread cv2 path with
              | None => Ok None
              | Some frame =>
                  match method_distribution extraction_result,
                        length_stats extraction_result,
                        total_vectors extraction_result with
                  | None, _, _ => Raise "KeyError: 'method_distribution'"
                  | Some _, None, _ => Raise "KeyError: 'length_stats'"
                  | Some _, Some _, None => Raise "KeyError: 'total_vectors'"
                  | Some method_dist, Some lengths, Some total =>
                      Ok (Some
                        {| arrows := map arrow_of (vectors extraction_result);
                           quality_circles :=
                             map center
                                 (filter high_quality
                                         (vectors extraction_result));
                           shown_total := total;
                           shown_methods := method_dist;
                           shown_lengths := lengths;
                           shape_preserved :=
                             if Rle_dec (stats_max lengths) 18
                             then true else false;
                           legend_elements := legend_of method_dist;
                           saved_to := output_path path |})
                  end
              end
          end
      end
  end.

(** The loop of [main] over [extraction_results]: the paths of the
    visualizations that were created. *)
Definition created_visualizations (extraction_results : list FrameResult)
  : result (list string) :=
  for_extend
    (fun r =>
       if no_error r then
         viz <- create_vector_visualization r ;;
         match viz with
         | Some figure => Ok [saved_to figure]
         | None => Ok []
         end
       else Ok [])
    extraction_results.

End Visualizer.

(** ** Construction with a configuration *)



(** ** A frame with two detections of the same score *)





(** * Properties *)

(** ** Lengths *)

Lemma hypot_nonneg (dx dy : R) : 0 <= hypot dx dy.
Proof. apply sqrt_pos. Qed.

Lemma hypot_scale (dx dy s : R) :
  0 <= s -> hypot (dx * s) (dy * s) = hypot dx dy * s.
Proof.
  intros Hs. unfold hypot.
  replace (dx * s * (dx * s) + dy * s * (dy * s))
    with ((dx * dx + dy * dy) * (s * s)) by ring.
  rewrite sqrt_mult; try nra.
  now rewrite sqrt_square.
Qed.

(** After "Apply length constraints" the length is the norm of the
    direction, and it is no more than the maximum. *)
Lemma apply_length_constraints_spec (p : Params) (dx dy dx' dy' l : R) :
  0 <= max_vector_length p ->
  apply_length_constraints p dx dy = (dx', dy', l) ->
  l = hypot dx' dy' /\ l <= max_vector_length p.
Proof.
  intros Hmax. unfold apply_length_constraints.
  destruct (Rgt_dec (hypot dx dy) (max_vector_length p)) as [Hgt | Hle];
    intros [= <- <- <-].
  - split; [| lra].
    rewrite hypot_scale.
    + field. lra.
    + apply Rle_mult_inv_pos; lra.
  - split; [reflexivity | lra].
Qed.

Lemma appended_well_formed (p : Params) (m : Method) (v : Vector) :
  0 <= max_vector_length p -> appended p m v -> well_formed p v.
Proof.
  intros Hmax [c dx dy dx' dy' l a q k e Hc Hmin].
  destruct (apply_length_constraints_spec p dx dy dx' dy' l Hmax Hc)
    as [Hl Hle].
  unfold well_formed, consistent, within_bounds; simpl.
  rewrite <- Hl. repeat split; lra.
Qed.

Lemma appended_method (p : Params) (m : Method) (v : Vector) :
  appended p m v -> method v = m.
Proof. now intros []. Qed.

Lemma for_extend_Forall {A B : Type} (P : B -> Prop)
    (body : A -> result (list B)) (l : list A) (out : list B) :
  (forall a bs, In a l -> body a = Ok bs -> Forall P bs) ->
  for_extend body l = Ok out -> Forall P out.
Proof.
  revert out. induction l as [| a rest IH]; simpl; intros out Hbody.
  - intros [= <-]. constructor.
  - destruct (body a) as [bs | e] eqn:Ha; simpl; [| discriminate].
    destruct (for_extend body rest) as [more | e] eqn:Hrest; simpl;
      [| discriminate].
    intros [= <-]. apply Forall_app. split.
    + apply (Hbody a); [now left | exact Ha].
    + apply IH; [| reflexivity].
      intros a' bs' Hin. apply Hbody. now right.
Qed.

Lemma Forall_flat_map {A B : Type} (P : B -> Prop) (f : A -> list B)
    (l : list A) :
  (forall a, In a l -> Forall P (f a)) -> Forall P (flat_map f l).
Proof.
  induction l as [| a rest IH]; simpl; intros H; [constructor |].
  apply Forall_app. split; auto.
Qed.

Section ExtractorFacts.

Context {Image : Type}.
Variable cv2 : Cv2 Image.
Variable self : MotionVectorExtractor.

Lemma ffmpeg_contour_appended (range_idx : nat) (c : Contour)
    (vs : list Vector) :
  ffmpeg_contour self range_idx c = Ok vs ->
  Forall (appended (params self) ffmpeg) vs.
Proof.
  unfold ffmpeg_contour.
  destruct (Rle_dec 2 (contourArea c)); [| intros [= <-]; constructor].
  destruct (Rle_dec (contourArea c) 50); [| intros [= <-]; constructor].
  destruct (Rgt_dec (m00 c) 0); [| intros [= <-]; constructor].
  destruct (5 <=? len c)%nat; [| intros [= <-]; constructor].
  destruct (fitEllipse c) as [[[width height] ang] | e]; simpl;
    [| discriminate].
  destruct (apply_length_constraints _ _ _) as [[dx dy] l] eqn:Hc.
  destruct (Rge_dec l _) as [Hmin | _]; intros [= <-]; constructor;
    [| constructor].
  econstructor; eauto.
Qed.

Lemma extract_ffmpeg_vectors_appended (frame : Image) (vs : list Vector) :
  extract_ffmpeg_vectors cv2 self frame = Ok vs ->
  Forall (appended (params self) ffmpeg) vs.
Proof.
  unfold extract_ffmpeg_vectors.
  destruct (cvtColor_HSV cv2 frame); cbn [bind]; [| discriminate].
  apply for_extend_Forall. intros idx bs _.
  destruct (findContours cv2 frame idx) as [cs | e]; cbn [bind];
    [| discriminate].
  apply for_extend_Forall. intros c vs' _.
  apply ffmpeg_contour_appended.
Qed.

Lemma flow_sample_appended (fl : Flow) (y x : Z) :
  Forall (appended (params self) flow) (flow_sample self fl y x).
Proof.
  unfold flow_sample.
  destruct (flow_at fl y x) as [fx fy].
  destruct (Rgt_dec _ _); [| constructor].
  destruct (apply_length_constraints _ _ _) as [[dx dy] l] eqn:Hc.
  destruct (Rge_dec l _) as [Hmin | _]; constructor; [| constructor].
  econstructor; eauto.
Qed.

Lemma extract_optical_flow_vectors_appended (frame : Image)
    (vs : list Vector) :
  extract_optical_flow_vectors cv2 self frame = Ok vs ->
  Forall (appended (params self) flow) vs.
Proof.
  unfold extract_optical_flow_vectors.
  destruct (cvtColor_GRAY cv2 frame); simpl; [| discriminate].
  destruct (calcOpticalFlowFarneback cv2 frame) as [fl | e].
  - destruct (flow_shape fl) as [h w]. intros [= <-].
    apply Forall_flat_map. intros y _.
    apply Forall_flat_map. intros x _.
    apply flow_sample_appended.
  - intros [= <-]. constructor.
Qed.

Lemma edge_line_appended (line : Z * Z * Z * Z) :
  Forall (appended (params self) edge) (edge_line self line).
Proof.
  unfold edge_line.
  destruct line as [[[x1 y1] x2] y2].
  destruct (apply_length_constraints _ _ _) as [[dx dy] l] eqn:Hc.
  destruct (Rge_dec l _) as [Hmin | _]; constructor; [| constructor].
  econstructor; eauto.
Qed.

Lemma extract_edge_vectors_appended (frame : Image) (vs : list Vector) :
  extract_edge_vectors cv2 self frame = Ok vs ->
  Forall (appended (params self) edge) vs.
Proof.
  unfold extract_edge_vectors.
  destruct (cvtColor_GRAY cv2 frame); simpl; [| discriminate].
  destruct (HoughLinesP cv2 frame) as [[lines |] | e]; simpl;
    try discriminate; intros [= <-].
  - apply Forall_flat_map. intros line _. apply edge_line_appended.
  - constructor.
Qed.

(** [all_vectors] is the three lists one after the other. *)
Lemma all_methods_inv (frame : Image) (vs : list Vector) :
  all_methods cv2 self frame = Ok vs ->
  exists a b c,
    vs = a ++ b ++ c
    /\ Forall (appended (params self) ffmpeg) a
    /\ Forall (appended (params self) flow) b
    /\ Forall (appended (params self) edge) c.
Proof.
  unfold all_methods.
  destruct (extract_ffmpeg_vectors cv2 self frame) as [a | e] eqn:Ha;
    simpl; [| discriminate].
  destruct (extract_optical_flow_vectors cv2 self frame) as [b | e] eqn:Hb;
    simpl; [| discriminate].
  destruct (extract_edge_vectors cv2 self frame) as [c | e] eqn:Hc;
    simpl; [| discriminate].
  intros [= <-]. exists a, b, c. repeat split.
  - now apply (extract_ffmpeg_vectors_appended frame).
  - now apply (extract_optical_flow_vectors_appended frame).
  - now apply (extract_edge_vectors_appended frame).
Qed.

Lemma all_methods_well_formed (frame : Image) (vs : list Vector) :
  0 <= max_vector_length (params self) ->
  all_methods cv2 self frame = Ok vs ->
  Forall (well_formed (params self)) vs.
Proof.
  intros Hmax H.
  destruct (all_methods_inv frame vs H) as (a & b & c & -> & Ha & Hb & Hc).
  repeat (apply Forall_app; split).
  - revert Ha. apply Forall_impl. intros v. now apply appended_well_formed.
  - revert Hb. apply Forall_impl. intros v. now apply appended_well_formed.
  - revert Hc. apply Forall_impl. intros v. now apply appended_well_formed.
Qed.

End ExtractorFacts.

(** ** Fusion *)

Lemma scale_vector_consistent (scale_back : R) (v : Vector) :
  0 <= scale_back -> consistent v -> consistent (scale_vector scale_back v).
Proof.
  unfold consistent, scale_vector.
  destruct v as [[cx cy] [dx dy] m a q k t e]; simpl. intros Hs ->.
  replace (dx * scale_back * 0.8) with (dx * (scale_back * 0.8)) by ring.
  replace (dy * scale_back * 0.8) with (dy * (scale_back * 0.8)) by ring.
  rewrite hypot_scale; [reflexivity | lra].
Qed.

Lemma scale_vector_method (scale_back : R) (v : Vector) :
  method (scale_vector scale_back v) = method v.
Proof. now destruct v as [[cx cy] [dx dy] m a q k t e]. Qed.

Lemma insert_scored_In (x y : R * Vector) (l : list (R * Vector)) :
  In y (insert_scored x l) <-> y = x \/ In y l.
Proof.
  induction l as [| z rest IH]; simpl.
  - intuition.
  - destruct (Rgt_dec (fst z) (fst x)); simpl; rewrite ?IH; intuition.
Qed.

Lemma sort_reverse_In (y : R * Vector) (l : list (R * Vector)) :
  In y (sort_reverse l) <-> In y l.
Proof.
  induction l as [| x rest IH]; simpl; [reflexivity |].
  rewrite insert_scored_In, IH. intuition.
Qed.

Lemma scored_vectors_In (v : Vector) (s : R) (l : list Vector) :
  In (s, v) (scored_vectors l) -> In v l.
Proof.
  unfold scored_vectors. rewrite sort_reverse_In, in_map_iff.
  now intros (w & [= _ <-] & Hw).
Qed.

Lemma remove_duplicates_from_In (n : nat) (scored : list (R * Vector))
    (final_vectors : list Vector) (v : Vector) :
  In v (remove_duplicates_from n scored final_vectors) ->
  In v final_vectors \/ exists s, In (s, v) scored.
Proof.
  revert final_vectors.
  induction scored as [| [s w] rest IH]; simpl; intros fin H; [now left |].
  assert (Hstep : In v (fin ++ [w]) ->
                  In v fin \/ exists s0, (s, w) = (s0, v) \/ In (s0, v) rest).
  { rewrite in_app_iff. simpl. intros [Hf | [-> | []]]; [now left |].
    right. exists s. now left. }
  destruct (is_duplicate w fin).
  - destruct (IH _ H) as [Hf | [s0 Hs]]; [now left |].
    right. exists s0. now right.
  - destruct (n <=? _)%nat; [now apply Hstep |].
    destruct (IH _ H) as [Hf | [s0 Hs]]; [now apply Hstep |].
    right. exists s0. now right.
Qed.

Section FusionFacts.

Variable self : MotionVectorExtractor.

Lemma filter_vectors_In (v : Vector) (l : list Vector) :
  In v (filter_vectors self l) ->
  In v l
  /\ quality v >= quality_threshold (params self)
  /\ confidence v >= confidence_threshold (params self).
Proof.
  unfold filter_vectors. rewrite filter_In. unfold passes_thresholds.
  intros [Hin Hp].
  destruct (Rge_dec (quality v) _); [| discriminate].
  destruct (Rge_dec (confidence v) _); [| discriminate].
  auto.
Qed.

(** An accepted vector is one of the scaled-back detections. *)
Lemma fuse_In (scale_back : R) (all_vectors : list Vector) (v : Vector) :
  In v (fuse self scale_back all_vectors) ->
  In v (scale_vectors_back scale_back all_vectors).
Proof.
  unfold fuse, remove_duplicates. intros H.
  apply remove_duplicates_from_In in H. destruct H as [[] | [s Hs]].
  apply scored_vectors_In in Hs. now apply filter_vectors_In in Hs.
Qed.

End FusionFacts.

(** *** The cap *)

Lemma remove_duplicates_from_length (n : nat) (scored : list (R * Vector))
    (final_vectors : list Vector) :
  (List.length final_vectors < n)%nat ->
  (List.length (remove_duplicates_from n scored final_vectors) <= n)%nat.
Proof.
  revert final_vectors.
  induction scored as [| [s w] rest IH]; simpl; intros fin Hlen; [lia |].
  destruct (is_duplicate w fin); [now apply IH |].
  destruct (n <=? List.length (fin ++ [w]))%nat eqn:Hcap.
  - rewrite length_app in *. simpl in *. lia.
  - apply IH. apply Nat.leb_gt in Hcap. exact Hcap.
Qed.

(** *** The separation of the accepted centers *)

Lemma dist_sym (a b : Z * Z) : dist a b = dist b a.
Proof.
  unfold dist. f_equal. f_equal. ring.
Qed.

Lemma is_duplicate_false (v : Vector) (final_vectors : list Vector) :
  is_duplicate v final_vectors = false ->
  Forall (fun existing => apart existing v) final_vectors.
Proof.
  unfold is_duplicate. induction final_vectors as [| x rest IH]; simpl;
    [constructor |].
  destruct (Rlt_dec (dist (center v) (center x)) 15) as [Hlt | Hge];
    simpl; [discriminate |].
  intros H. constructor; [| now apply IH].
  unfold apart. rewrite dist_sym. lra.
Qed.

Lemma ForallOrdPairs_snoc {A : Type} (P : A -> A -> Prop) (l : list A)
    (x : A) :
  ForallOrdPairs P l -> Forall (fun a => P a x) l ->
  ForallOrdPairs P (l ++ [x]).
Proof.
  induction 1 as [| a l Ha Hl IH]; simpl; intros Hx.
  - repeat constructor.
  - inversion Hx; subst. constructor.
    + apply Forall_app. split; [exact Ha | now constructor].
    + now apply IH.
Qed.

Lemma ForallOrdPairs_nth {A : Type} (P : A -> A -> Prop) (l : list A) :
  ForallOrdPairs P l ->
  forall i j a b, (i < j)%nat ->
    nth_error l i = Some a -> nth_error l j = Some b -> P a b.
Proof.
  induction 1 as [| x l Hx Hl IH]; intros i j a b Hij Hi Hj.
  - now destruct i.
  - destruct j as [| j]; [lia |]. simpl in Hj.
    destruct i as [| i]; simpl in Hi.
    + injection Hi as <-. rewrite Forall_forall in Hx.
      apply Hx. eapply nth_error_In; eauto.
    + apply (IH i j); auto. lia.
Qed.

Lemma remove_duplicates_from_apart (n : nat) (scored : list (R * Vector))
    (final_vectors : list Vector) :
  ForallOrdPairs apart final_vectors ->
  ForallOrdPairs apart (remove_duplicates_from n scored final_vectors).
Proof.
  revert final_vectors.
  induction scored as [| [s w] rest IH]; simpl; intros fin Hfin; [exact Hfin |].
  destruct (is_duplicate w fin) eqn:Hdup; [now apply IH |].
  assert (Hnew : ForallOrdPairs apart (fin ++ [w])).
  { apply ForallOrdPairs_snoc; [exact Hfin | now apply is_duplicate_false]. }
  destruct (n <=? _)%nat; [exact Hnew | now apply IH].
Qed.

(** *** The order before the deduplication *)

Lemma insert_scored_sorted (x : R * Vector) (l : list (R * Vector)) :
  StronglySorted precedes l ->
  Forall (fun y => (method_rank (method (snd x))
                    <= method_rank (method (snd y)))%nat) l ->
  StronglySorted precedes (insert_scored x l).
Proof.
  induction 1 as [| y rest Hrest IH Hy]; simpl; intros Hrank.
  - repeat constructor.
  - inversion Hrank as [| ? ? Hxy Hxrest]; subst.
    destruct (Rgt_dec (fst y) (fst x)) as [Hgt | Hle].
    + constructor; [now apply IH |].
      rewrite Forall_forall. intros z Hz.
      apply insert_scored_In in Hz. destruct Hz as [-> | Hz].
      * now left.
      * rewrite Forall_forall in Hy. now apply Hy.
    + constructor; [now constructor |].
      assert (Hx : precedes x y).
      { unfold precedes. destruct (Rtotal_order (fst x) (fst y))
          as [Hlt | [Heq | Hgt]]; [lra | now right | now left]. }
      constructor; [exact Hx |].
      rewrite Forall_forall in *. intros z Hz.
      specialize (Hy z Hz). specialize (Hxrest z Hz).
      unfold precedes in *.
      destruct Hy as [Hy | [Hy _]]; destruct Hx as [Hx | [Hx _]];
        try (left; lra).
      destruct (Rtotal_order (fst x) (fst z)) as [Hlt | [Heq | Hgt]];
        [lra | now right | now left].
Qed.

Lemma sort_reverse_sorted (l : list (R * Vector)) :
  StronglySorted (fun a b => (method_rank (method (snd a))
                              <= method_rank (method (snd b)))%nat) l ->
  StronglySorted precedes (sort_reverse l).
Proof.
  induction 1 as [| x rest Hrest IH Hx]; simpl; [constructor |].
  apply insert_scored_sorted; [exact IH |].
  rewrite Forall_forall in *. intros y Hy.
  apply Hx. now apply sort_reverse_In.
Qed.

(** ** The per-frame function *)

Lemma StronglySorted_ForallOrdPairs {A : Type} (P : A -> A -> Prop)
    (l : list A) :
  StronglySorted P l <-> ForallOrdPairs P l.
Proof.
  split; induction 1; constructor; auto.
Qed.

Lemma ForallOrdPairs_app {A : Type} (P : A -> A -> Prop) (l1 l2 : list A) :
  ForallOrdPairs P l1 -> ForallOrdPairs P l2 ->
  (forall a b, In a l1 -> In b l2 -> P a b) ->
  ForallOrdPairs P (l1 ++ l2).
Proof.
  induction 1 as [| a l Ha Hl IH]; simpl; intros H2 Hcross; [exact H2 |].
  constructor.
  - apply Forall_app. split; [exact Ha |].
    rewrite Forall_forall. intros b Hb. apply Hcross; [now left | exact Hb].
  - apply IH; [exact H2 |]. intros x y Hx Hy. apply Hcross; [now right | exact Hy].
Qed.

Lemma ForallOrdPairs_filter {A : Type} (P : A -> A -> Prop)
    (f : A -> bool) (l : list A) :
  ForallOrdPairs P l -> ForallOrdPairs P (filter f l).
Proof.
  induction 1 as [| a l Ha Hl IH]; simpl; [constructor |].
  destruct (f a); [| exact IH].
  constructor; [| exact IH].
  rewrite Forall_forall in *. intros b Hb. apply filter_In in Hb.
  apply Ha. tauto.
Qed.

Lemma ForallOrdPairs_map {A B : Type} (P : A -> A -> Prop)
    (Q : B -> B -> Prop) (f : A -> B) (l : list A) :
  (forall a b, P a b -> Q (f a) (f b)) ->
  ForallOrdPairs P l -> ForallOrdPairs Q (map f l).
Proof.
  intros HPQ. induction 1 as [| a l Ha Hl IH]; simpl; constructor; auto.
  rewrite Forall_forall in *. intros b Hb. apply in_map_iff in Hb.
  destruct Hb as (x & <- & Hx). auto.
Qed.

Lemma ForallOrdPairs_same {A : Type} (P : A -> A -> Prop) (l : list A) :
  (forall a b, In a l -> In b l -> P a b) -> ForallOrdPairs P l.
Proof.
  induction l as [| a l IH]; intros H; constructor.
  - rewrite Forall_forall. intros b Hb. apply H; [now left | now right].
  - apply IH. intros x y Hx Hy. apply H; now right.
Qed.

Section FrameFacts.

Context {Image : Type}.
Variable cv2 : Cv2 Image.
Variable self : MotionVectorExtractor.

(** The two ways in which the per-frame function returns. *)
Lemma extract_motion_vectors_from_frame_inv (path : string)
    (r : FrameResult) :
  extract_motion_vectors_from_frame cv2 self path = Ok r ->
  (imread cv2 path = None /\ r = error_result)
  \/ exists frame frame_resized scale_back all_vectors,
      imread cv2 path = Some frame
      /\ resize_for_processing cv2 frame = Ok (frame_resized, scale_back)
      /\ all_methods cv2 self frame_resized = Ok all_vectors
      /\ r = success_result path (snd (shape cv2 frame))
                            (fst (shape cv2 frame))
                            (fuse self scale_back all_vectors).
Proof.
  unfold extract_motion_vectors_from_frame.
  destruct (imread cv2 path) as [frame |]; [| intros [= <-]; now left].
  destruct (shape cv2 frame) as [h w] eqn:Hshape.
  destruct (resize_for_processing cv2 frame) as [[fr sb] | e] eqn:Hres;
    cbn [bind]; [| discriminate].
  destruct (all_methods cv2 self fr) as [all | e] eqn:Hall;
    cbn [bind]; [| discriminate].
  intros [= <-]. right. exists frame, fr, sb, all.
  rewrite Hshape. repeat split; try assumption; reflexivity.
Qed.

(** [scale_back] is 1.0, or greater when the frame was resized. *)
Lemma resize_for_processing_scale (frame frame_resized : Image)
    (scale_back : R) :
  resize_for_processing cv2 frame = Ok (frame_resized, scale_back) ->
  1 <= scale_back.
Proof.
  unfold resize_for_processing.
  destruct (shape cv2 frame) as [h w].
  destruct (600 <? Z.max h w)%Z eqn:Hbig.
  - destruct (resize cv2 frame _) as [fr | e]; cbn [bind]; [| discriminate].
    intros [= _ <-]. apply Z.ltb_lt in Hbig. apply IZR_lt in Hbig. lra.
  - intros [= _ <-]. lra.
Qed.

Lemma scale_vectors_back_consistent (scale_back : R) (l : list Vector) :
  0 <= scale_back -> Forall consistent l ->
  Forall consistent (scale_vectors_back scale_back l).
Proof.
  intros Hs Hl. unfold scale_vectors_back.
  destruct (Req_dec_T scale_back 1); [exact Hl |].
  rewrite Forall_forall in *. intros v Hv. apply in_map_iff in Hv.
  destruct Hv as (w & <- & Hw). apply scale_vector_consistent; auto.
Qed.

Lemma fuse_Forall (P : Vector -> Prop) (scale_back : R) (l : list Vector) :
  Forall P (scale_vectors_back scale_back l) ->
  Forall P (fuse self scale_back l).
Proof.
  rewrite !Forall_forall. intros H v Hv. apply H. now apply fuse_In in Hv.
Qed.

(** In [all_vectors], and still after the scaling back and the filter, a
    method of higher priority stands before one of lower priority. *)
Lemma all_methods_ranked (frame : Image) (vs : list Vector) :
  all_methods cv2 self frame = Ok vs ->
  ForallOrdPairs (fun a b => (method_rank (method a)
                              <= method_rank (method b))%nat) vs.
Proof.
  intros H.
  destruct (all_methods_inv cv2 self frame vs H)
    as (a & b & c & -> & Ha & Hb & Hc).
  rewrite Forall_forall in Ha, Hb, Hc.
  assert (Hm : forall m l,
             (forall v, In v l -> appended (params self) m v) ->
             forall v, In v l -> method v = m).
  { intros m l Hl v Hv. eapply appended_method; eauto. }
  pose proof (Hm _ _ Ha) as Ma. pose proof (Hm _ _ Hb) as Mb.
  pose proof (Hm _ _ Hc) as Mc.
  repeat apply ForallOrdPairs_app.
  - apply ForallOrdPairs_same. intros x y Hx Hy.
    now rewrite (Ma x Hx), (Ma y Hy).
  - apply ForallOrdPairs_same. intros x y Hx Hy.
    now rewrite (Mb x Hx), (Mb y Hy).
  - apply ForallOrdPairs_same. intros x y Hx Hy.
    now rewrite (Mc x Hx), (Mc y Hy).
  - intros x y Hx Hy. rewrite (Mb x Hx), (Mc y Hy). simpl. lia.
  - intros x y Hx Hy. rewrite (Ma x Hx).
    apply in_app_iff in Hy. destruct Hy as [Hy | Hy].
    + rewrite (Mb y Hy). simpl. lia.
    + rewrite (Mc y Hy). simpl. lia.
Qed.

End FrameFacts.

(** ** Evaluation on concrete frames *)

Lemma hypot_0 : hypot 0 0 = 0.
Proof.
  unfold hypot. replace (0 * 0 + 0 * 0) with 0 by ring. apply sqrt_0.
Qed.

Lemma hypot_eq (dx dy l : R) :
  0 <= l -> dx * dx + dy * dy = l * l -> hypot dx dy = l.
Proof.
  intros Hl H. unfold hypot. rewrite H. now apply sqrt_square.
Qed.

Lemma sqrt_eq (x l : R) : 0 <= l -> x = l * l -> sqrt x = l.
Proof. intros Hl ->. now apply sqrt_square. Qed.

Lemma int_IZR (z : Z) (x : R) : (0 <= z)%Z -> x = IZR z -> int x = z.
Proof.
  intros Hz ->. unfold int.
  destruct (Rle_dec 0 (IZR z)) as [_ | Hn].
  - symmetry. apply Int_part_spec. lra.
  - exfalso. apply Hn. now apply IZR_le.
Qed.

Lemma flow_sample_still (self : MotionVectorExtractor) (h w y x : Z) :
  flow_sample self (still h w) y x = [].
Proof.
  unfold flow_sample. simpl. rewrite hypot_0.
  destruct (Rgt_dec 0 0.8); [lra | reflexivity].
Qed.

Lemma flat_map_nil {A B : Type} (f : A -> list B) (l : list A) :
  (forall a, f a = []) -> flat_map f l = [].
Proof.
  intros H. induction l as [| a rest IH]; simpl; [reflexivity |].
  now rewrite H, IH.
Qed.

Lemma extract_optical_flow_vectors_still (self : MotionVectorExtractor)
    (files : string -> option Frame) (frame : Frame) (h w : Z) :
  frame_flow frame = Ok (still h w) ->
  extract_optical_flow_vectors (cv2_of files) self frame = Ok [].
Proof.
  intros H. unfold extract_optical_flow_vectors. simpl. rewrite H. simpl.
  f_equal. apply flat_map_nil. intros y. apply flat_map_nil. intros x.
  apply flow_sample_still.
Qed.

(** A segment whose scaled length is within the bounds gives one vector. *)
Lemma edge_line_kept (self : MotionVectorExtractor) (x1 y1 x2 y2 : Z)
    (l : R) :
  let dx := IZR (x2 - x1) * edge_scale (params self) in
  let dy := IZR (y2 - y1) * edge_scale (params self) in
  let original_length :=
    sqrt (IZR ((x2 - x1) * (x2 - x1) + (y2 - y1) * (y2 - y1))) in
  hypot dx dy = l ->
  min_vector_length (params self) <= l <= max_vector_length (params self) ->
  edge_line self (x1, y1, x2, y2)
  = [ {| center := (((x1 + x2) / 2)%Z, ((y1 + y2) / 2)%Z);
         direction := (dx, dy);
         magnitude := l;
         angle := arctan2 dy dx;
         quality := Rmin (original_length / 30) 1;
         confidence := 0.6;
         method := edge;
         evidence := original_length |} ].
Proof.
  intros dx dy original_length Hl [Hmin Hmax].
  unfold edge_line, apply_length_constraints. fold dx dy. rewrite Hl.
  destruct (Rgt_dec l _); [lra |].
  destruct (Rge_dec l _); [reflexivity | lra].
Qed.

Lemma edge_line_eval (self : MotionVectorExtractor) (x1 y1 x2 y2 : Z)
    (c : Z * Z) (dx dy l len q : R) :
  (((x1 + x2) / 2)%Z, ((y1 + y2) / 2)%Z) = c ->
  IZR (x2 - x1) * edge_scale (params self) = dx ->
  IZR (y2 - y1) * edge_scale (params self) = dy ->
  0 <= len ->
  IZR ((x2 - x1) * (x2 - x1) + (y2 - y1) * (y2 - y1)) = len * len ->
  0 <= l -> dx * dx + dy * dy = l * l ->
  min_vector_length (params self) <= l <= max_vector_length (params self) ->
  Rmin (len / 30) 1 = q ->
  edge_line self (x1, y1, x2, y2)
  = [ {| center := c; direction := (dx, dy); magnitude := l;
         angle := arctan2 dy dx; quality := q; confidence := 0.6;
         method := edge; evidence := len |} ].
Proof.
  intros <- <- <- Hlen Hlen2 Hl Hl2 Hb <-.
  rewrite (edge_line_kept self x1 y1 x2 y2 l);
    [| now apply hypot_eq | exact Hb].
  now rewrite (sqrt_eq _ len Hlen Hlen2).
Qed.

(** A contour that passes every test of the FFmpeg extractor and whose
    scaled length is within the bounds gives one vector. *)
Lemma ffmpeg_contour_eval (self : MotionVectorExtractor) (range_idx : nat)
    (c : Contour) (width height ang : R) (cx cy : Z) (dx dy l q k : R) :
  2 <= contourArea c <= 50 ->
  m00 c > 0 ->
  int (m10 c / m00 c) = cx ->
  int (m01 c / m00 c) = cy ->
  (5 <= len c)%nat ->
  fitEllipse c = Ok (width, height, ang) ->
  Rmax width height * ffmpeg_scale (params self) * cos (radians ang) = dx ->
  Rmax width height * ffmpeg_scale (params self) * sin (radians ang) = dy ->
  0 <= l -> dx * dx + dy * dy = l * l ->
  min_vector_length (params self) <= l <= max_vector_length (params self) ->
  Rmin (contourArea c / 50) 1 = q ->
  0.9 - INR range_idx * 0.1 = k ->
  ffmpeg_contour self range_idx c
  = Ok [ {| center := (cx, cy); direction := (dx, dy); magnitude := l;
            angle := radians ang; quality := q; confidence := k;
            method := ffmpeg; evidence := contourArea c |} ].
Proof.
  intros [Ha1 Ha2] Hm <- <- Hlen Hfit <- <- Hl Hl2 [Hmin Hmax] <- <-.
  unfold ffmpeg_contour.
  destruct (Rle_dec 2 (contourArea c)); [| lra].
  destruct (Rle_dec (contourArea c) 50); [| lra].
  destruct (Rgt_dec (m00 c) 0); [| lra].
  apply Nat.leb_le in Hlen. rewrite Hlen, Hfit. cbn [bind].
  unfold apply_length_constraints.
  rewrite (hypot_eq _ _ l Hl Hl2).
  destruct (Rgt_dec l _); [lra |].
  destruct (Rge_dec l _); [reflexivity | lra].
Qed.

Lemma dist_eq (a b : Z * Z) (d : R) :
  0 <= d ->
  IZR ((fst a - fst b) ^ 2 + (snd a - snd b) ^ 2) = d * d ->
  dist a b = d.
Proof. intros Hd H. unfold dist. now apply sqrt_eq. Qed.

(** Decides the comparisons of reals that occur in a goal when both sides
    are numerals. *)
Ltac real_cases :=
  repeat match goal with
  | |- context [Rge_dec ?a ?b] => destruct (Rge_dec a b); try lra
  | |- context [Rgt_dec ?a ?b] => destruct (Rgt_dec a b); try lra
  | |- context [Rlt_dec ?a ?b] => destruct (Rlt_dec a b); try lra
  | |- context [Rle_dec ?a ?b] => destruct (Rle_dec a b); try lra
  | |- context [Req_dec_T ?a ?b] => destruct (Req_dec_T a b); try lra
  end.

(** *** The frame with two segments *)

Lemma all_methods_two_segments (files : string -> option Frame) :
  all_methods (cv2_of files) (init false) two_segments = Ok [seg_a; seg_b].
Proof.
  unfold all_methods.
  assert (Hf : extract_ffmpeg_vectors (cv2_of files) (init false)
                 two_segments = Ok []) by reflexivity.
  rewrite Hf. cbn [bind].
  rewrite (extract_optical_flow_vectors_still _ _ _ 40 40) by reflexivity.
  cbn [bind]. unfold extract_edge_vectors.
  cbn [bind cvtColor_GRAY HoughLinesP cv2_of two_segments frame_lines
       flat_map].
  rewrite (edge_line_eval (init false) 0 0 6 8 (3, 4)%Z 3 4 5 10 (1 / 3));
    try (simpl; lra); try reflexivity.
  2:{ rewrite Rmin_left; lra. }
  rewrite (edge_line_eval (init false) 15 0 21 8 (18, 4)%Z 3 4 5 10 (1 / 3));
    try (simpl; lra); try reflexivity.
  rewrite Rmin_left; lra.
Qed.

Lemma scored_two_segments :
  scored_vectors (filter_vectors (init false)
                    (scale_vectors_back 1 [seg_a; seg_b]))
  = [(1 / 3 * 0.6, seg_a); (1 / 3 * 0.6, seg_b)].
Proof.
  unfold scale_vectors_back.
  destruct (Req_dec_T 1 1) as [_ | H]; [| now elim H].
  assert (Hfilt : filter_vectors (init false) [seg_a; seg_b]
                  = [seg_a; seg_b]).
  { unfold filter_vectors, passes_thresholds. simpl. real_cases.
    reflexivity. }
  rewrite Hfilt. unfold scored_vectors, sort_reverse. simpl. real_cases.
  reflexivity.
Qed.

Lemma fuse_two_segments :
  fuse (init false) 1 [seg_a; seg_b] = [seg_a; seg_b].
Proof.
  unfold fuse. rewrite scored_two_segments.
  unfold remove_duplicates. simpl.
  rewrite (dist_eq _ _ 15); [| lra | simpl; lra].
  real_cases. reflexivity.
Qed.

Lemma extract_two_segments :
  extract_motion_vectors_from_frame (cv2_of folder) (init false)
    "frame_0001.png"
  = Ok (success_result "frame_0001.png" 40 40 [seg_a; seg_b]).
Proof.
  unfold extract_motion_vectors_from_frame.
  change (imread (cv2_of folder) "frame_0001.png") with (Some two_segments).
  cbv beta iota.
  assert (Hs : shape (cv2_of folder) two_segments = (40, 40)%Z)
    by reflexivity.
  assert (Hr : resize_for_processing (cv2_of folder) two_segments
               = Ok (two_segments, 1)) by reflexivity.
  rewrite Hs, Hr. cbn [bind].
  rewrite all_methods_two_segments. cbn [bind].
  now rewrite fuse_two_segments.
Qed.

(** * The invariants of the accepted vectors *)

(** C9: at every stage of the pipeline the stored [magnitude] of a
    detection is the Euclidean norm of its stored [direction], in exact
    real arithmetic: for the length that "Apply length constraints" leaves
    next to the clamped direction, for every vector appended by an
    extractor, after the mapping back from a downscaled frame (with its
    0.8 damping), and in the returned [vectors].  The maximum length is
    supposed non-negative, as the configured 18 is. *)
Theorem magnitude_consistent_at_every_stage
    (Image : Type) (cv2 : Cv2 Image) (self : MotionVectorExtractor)
    (path : string) (frame frame_resized : Image) (scale_back : R)
    (all_vectors : list Vector) :
  0 <= max_vector_length (params self) ->
  imread cv2 path = Some frame ->
  resize_for_processing cv2 frame = Ok (frame_resized, scale_back) ->
  all_methods cv2 self frame_resized = Ok all_vectors ->
  (forall dx dy dx' dy' l,
      apply_length_constraints (params self) dx dy = (dx', dy', l) ->
      l = hypot dx' dy')
  /\ Forall consistent all_vectors
  /\ Forall consistent (scale_vectors_back scale_back all_vectors)
  /\ exists r,
      extract_motion_vectors_from_frame cv2 self path = Ok r
      /\ vectors r = fuse self scale_back all_vectors
      /\ Forall consistent (vectors r).
Proof.
  intros Hmax Hread Hresize Hall.
  assert (Hcreated : Forall consistent all_vectors).
  { apply (all_methods_well_formed cv2 self frame_resized) in Hall;
      [| exact Hmax].
    revert Hall. apply Forall_impl. now intros v [Hv _]. }
  assert (Hscaled :
            Forall consistent (scale_vectors_back scale_back all_vectors)).
  { apply scale_vectors_back_consistent; [| exact Hcreated].
    apply resize_for_processing_scale in Hresize. lra. }
  split; [| split; [exact Hcreated | split; [exact Hscaled |]]].
  - intros dx dy dx' dy' l Hc.
    now destruct (apply_length_constraints_spec _ _ _ _ _ _ Hmax Hc).
  - exists (success_result path (snd (shape cv2 frame))
                           (fst (shape cv2 frame))
                           (fuse self scale_back all_vectors)).
    split; [| split; [reflexivity |]].
    + unfold extract_motion_vectors_from_frame. rewrite Hread.
      destruct (shape cv2 frame) as [h w]. rewrite Hresize. cbn [bind].
      rewrite Hall. reflexivity.
    + simpl. now apply fuse_Forall.
Qed.

Lemma magnitude_consistent_at_every_stage_witness :
  Forall consistent [seg_a; seg_b]
  /\ exists r,
      extract_motion_vectors_from_frame (cv2_of folder) (init false)
        "frame_0001.png" = Ok r
      /\ vectors r = fuse (init false) 1 [seg_a; seg_b]
      /\ Forall consistent (vectors r).
Proof.
  destruct (magnitude_consistent_at_every_stage Frame (cv2_of folder)
              (init false) "frame_0001.png" two_segments two_segments 1
              [seg_a; seg_b]) as (_ & H & _ & Hr).
  - simpl. lra.
  - reflexivity.
  - reflexivity.
  - apply all_methods_two_segments.
  - split; [exact H | exact Hr].
Defined.

(** C7: the returned [vectors] list has at most [max_vectors_per_frame]
    entries (50 in [__init__]): the selection stops at the [break] once
    that many are accepted.  As an entry is appended before the count is
    tested, this needs a cap of at least one. *)
Theorem accepted_count_capped
    (Image : Type) (cv2 : Cv2 Image) (self : MotionVectorExtractor)
    (path : string) (r : FrameResult) :
  (1 <= max_vectors_per_frame (params self))%nat ->
  extract_motion_vectors_from_frame cv2 self path = Ok r ->
  (List.length (vectors r) <= max_vectors_per_frame (params self))%nat.
Proof.
  intros Hcap H.
  destruct (extract_motion_vectors_from_frame_inv cv2 self path r H)
    as [[_ ->] | (frame & fr & sb & all & _ & _ & _ & ->)]; simpl.
  - lia.
  - unfold fuse, remove_duplicates.
    apply remove_duplicates_from_length. simpl. lia.
Qed.

Lemma accepted_count_capped_witness :
  (List.length
     (vectors (success_result "frame_0001.png" 40 40 [seg_a; seg_b]))
   <= 50)%nat.
Proof.
  apply (accepted_count_capped Frame (cv2_of folder) (init false)
           "frame_0001.png").
  - simpl. lia.
  - apply extract_two_segments.
Defined.

(** C3, as amended: two vectors at distinct places of the returned
    [vectors] list have centers at a Euclidean distance of at least 15
    (the candidate is a duplicate when the distance is less than 15, so a
    distance of exactly 15 is accepted). *)
Theorem accepted_centers_apart
    (Image : Type) (cv2 : Cv2 Image) (self : MotionVectorExtractor)
    (path : string) (r : FrameResult) (i j : nat) (v1 v2 : Vector) :
  extract_motion_vectors_from_frame cv2 self path = Ok r ->
  i <> j ->
  nth_error (vectors r) i = Some v1 ->
  nth_error (vectors r) j = Some v2 ->
  15 <= dist (center v1) (center v2).
Proof.
  intros H Hij Hi Hj.
  assert (Hsep : ForallOrdPairs apart (vectors r)).
  { destruct (extract_motion_vectors_from_frame_inv cv2 self path r H)
      as [[_ ->] | (frame & fr & sb & all & _ & _ & _ & ->)]; simpl.
    - constructor.
    - unfold fuse, remove_duplicates.
      apply remove_duplicates_from_apart. constructor. }
  destruct (Nat.lt_total i j) as [Hlt | [Heq | Hgt]]; [| contradiction |].
  - exact (ForallOrdPairs_nth apart _ Hsep i j v1 v2 Hlt Hi Hj).
  - rewrite dist_sym.
    exact (ForallOrdPairs_nth apart _ Hsep j i v2 v1 Hgt Hj Hi).
Qed.

Lemma accepted_centers_apart_witness :
  15 <= dist (center seg_a) (center seg_b).
Proof.
  apply (accepted_centers_apart Frame (cv2_of folder) (init false)
           "frame_0001.png"
           (success_result "frame_0001.png" 40 40 [seg_a; seg_b])
           0%nat 1%nat).
  - apply extract_two_segments.
  - discriminate.
  - reflexivity.
  - reflexivity.
Defined.

(** C3, as stated, fails: the two segments of [two_segments] are both
    accepted, with centers at a distance of exactly 15. *)
Lemma strictly_apart_fails : ~ strictly_apart.
Proof.
  intros H.
  specialize (H Frame (cv2_of folder) (init false) "frame_0001.png"%string
                (success_result "frame_0001.png" 40 40 [seg_a; seg_b])
                0%nat 1%nat seg_a seg_b extract_two_segments).
  assert (Hd : dist (center seg_a) (center seg_b) = 15).
  { apply dist_eq; [lra | simpl; lra]. }
  rewrite Hd in H.
  assert (Hgt : 15 > 15) by (apply H; [discriminate | reflexivity ..]).
  lra.
Qed.

(** * Frames that cannot be loaded *)

Lemma for_extend_app {A B : Type} (body : A -> result (list B))
    (l1 l2 : list A) (o1 o2 : list B) :
  for_extend body l1 = Ok o1 -> for_extend body l2 = Ok o2 ->
  for_extend body (l1 ++ l2) = Ok (o1 ++ o2).
Proof.
  revert o1. induction l1 as [| a rest IH]; simpl; intros o1.
  - now intros [= <-].
  - destruct (body a) as [bs | e]; cbn [bind]; [| discriminate].
    destruct (for_extend body rest) as [more | e]; cbn [bind];
      [| discriminate].
    intros [= <-] H2. rewrite (IH more eq_refl H2). cbn [bind].
    now rewrite app_assoc.
Qed.

Section BatchFacts.

Context {Image : Type}.
Variable cv2 : Cv2 Image.
Variable self : MotionVectorExtractor.

Lemma process_all_frames_loop (frame_paths : list string) :
  process_all_frames cv2 self frame_paths
  = for_extend
      (fun path =>
         frame_result <- extract_motion_vectors_from_frame cv2 self path ;;
         Ok [frame_result])
      frame_paths.
Proof. now destruct frame_paths. Qed.

(** One result per path, in the order of the paths. *)
Lemma process_all_frames_Forall2 (frame_paths : list string)
    (results : list FrameResult) :
  process_all_frames cv2 self frame_paths = Ok results ->
  Forall2 (fun path r => extract_motion_vectors_from_frame cv2 self path
                         = Ok r)
          frame_paths results.
Proof.
  rewrite process_all_frames_loop. revert results.
  induction frame_paths as [| path rest IH]; simpl; intros results.
  - intros [= <-]. constructor.
  - destruct (extract_motion_vectors_from_frame cv2 self path)
      as [r | e] eqn:Hr; cbn [bind]; [| discriminate].
    destruct (for_extend _ rest) as [more | e]; cbn [bind]; [| discriminate].
    intros [= <-]. simpl. constructor; [exact Hr | now apply IH].
Qed.

End BatchFacts.

(** C5: for a path that [cv2.imread] cannot load, the per-frame function
    returns (it does not raise) a result with an empty [vectors] list and
    the [error] key set; in a batch, the results of the frames before it
    are followed by this result and then by the results of the frames
    after it: one result per path, in the order of the paths. *)
Theorem unreadable_frame_isolated
    (Image : Type) (cv2 : Cv2 Image) (self : MotionVectorExtractor)
    (before after : list string) (path : string)
    (results_before results_after : list FrameResult) :
  imread cv2 path = None ->
  process_all_frames cv2 self before = Ok results_before ->
  process_all_frames cv2 self after = Ok results_after ->
  exists r,
    extract_motion_vectors_from_frame cv2 self path = Ok r
    /\ vectors r = []
    /\ error r <> None
    /\ process_all_frames cv2 self (before ++ path :: after)
       = Ok (results_before ++ r :: results_after)
    /\ Forall2 (fun p r' => extract_motion_vectors_from_frame cv2 self p
                            = Ok r')
               (before ++ path :: after)
               (results_before ++ r :: results_after).
Proof.
  intros Hread Hbefore Hafter. exists error_result.
  assert (Hr : extract_motion_vectors_from_frame cv2 self path
               = Ok error_result).
  { unfold extract_motion_vectors_from_frame. now rewrite Hread. }
  assert (Hall : process_all_frames cv2 self (before ++ path :: after)
                 = Ok (results_before ++ error_result :: results_after)).
  { rewrite process_all_frames_loop in *.
    apply for_extend_app; [exact Hbefore |].
    simpl. rewrite Hr. cbn [bind]. rewrite Hafter. reflexivity. }
  repeat split; try assumption; try reflexivity.
  - discriminate.
  - now apply process_all_frames_Forall2.
Qed.

Lemma process_folder :
  process_all_frames (cv2_of folder) (init false) ["frame_0001.png"%string]
  = Ok [success_result "frame_0001.png" 40 40 [seg_a; seg_b]].
Proof.
  rewrite process_all_frames_loop. cbn [for_extend].
  rewrite extract_two_segments. reflexivity.
Qed.

Lemma unreadable_frame_isolated_witness :
  exists r,
    extract_motion_vectors_from_frame (cv2_of folder) (init false)
      "frame_0002.png" = Ok r
    /\ vectors r = []
    /\ error r <> None
    /\ process_all_frames (cv2_of folder) (init false)
         ["frame_0001.png"; "frame_0002.png"; "frame_0001.png"]%string
       = Ok [success_result "frame_0001.png" 40 40 [seg_a; seg_b];
             r;
             success_result "frame_0001.png" 40 40 [seg_a; seg_b]].
Proof.
  destruct (unreadable_frame_isolated Frame (cv2_of folder) (init false)
              ["frame_0001.png"%string] ["frame_0001.png"%string]
              "frame_0002.png"
              [success_result "frame_0001.png" 40 40 [seg_a; seg_b]]
              [success_result "frame_0001.png" 40 40 [seg_a; seg_b]])
    as (r & H1 & H2 & H3 & H4 & _).
  - reflexivity.
  - apply process_folder.
  - apply process_folder.
  - exists r. repeat split; assumption.
Defined.

(** C10: when the frame cannot be loaded, the returned dictionary has the
    keys [vectors] (empty) and [error] only: [frame_path], [frame_size],
    [total_vectors], [method_distribution], [length_stats] and
    [quality_stats] are missing.  When the frame is loaded, the returned
    dictionary has no [error] key and has all of these, and on an empty
    [vectors] list the count is 0, the distribution is empty and the six
    statistics are 0. *)
Theorem result_keys
    (Image : Type) (cv2 : Cv2 Image) (self : MotionVectorExtractor)
    (path : string) (r : FrameResult) :
  extract_motion_vectors_from_frame cv2 self path = Ok r ->
  (imread cv2 path = None ->
   vectors r = [] /\ error r <> None
   /\ frame_path r = None /\ frame_size r = None
   /\ total_vectors r = None /\ method_distribution r = None
   /\ length_stats r = None /\ quality_stats r = None)
  /\ (imread cv2 path <> None ->
      error r = None
      /\ frame_path r = Some path
      /\ (exists w h, frame_size r = Some (w, h))
      /\ total_vectors r = Some (List.length (vectors r))
      /\ method_distribution r = Some (method_counts (vectors r))
      /\ length_stats r = Some (stats_of (map magnitude (vectors r)))
      /\ quality_stats r = Some (stats_of (map quality (vectors r)))
      /\ (vectors r = [] ->
          total_vectors r = Some 0%nat
          /\ method_distribution r = Some []
          /\ length_stats r
             = Some {| stats_min := 0; stats_max := 0; stats_avg := 0 |}
          /\ quality_stats r
             = Some {| stats_min := 0; stats_max := 0; stats_avg := 0 |})).
Proof.
  intros H.
  destruct (extract_motion_vectors_from_frame_inv cv2 self path r H)
    as [[Hread ->] | (frame & fr & sb & all & Hread & _ & _ & ->)].
  - split; [| now intros Hn].
    intros _. repeat split; try reflexivity. discriminate.
  - split; [intros Hn; rewrite Hn in Hread; discriminate |].
    intros _. simpl. repeat split; try reflexivity.
    + now exists (snd (shape cv2 frame)), (fst (shape cv2 frame)).
    + now rewrite H0.
    + now rewrite H0.
    + now rewrite H0.
    + now rewrite H0.
Qed.

Lemma result_keys_witness :
  (vectors error_result = [] /\ error error_result <> None
   /\ frame_path error_result = None /\ frame_size error_result = None
   /\ total_vectors error_result = None
   /\ method_distribution error_result = None
   /\ length_stats error_result = None
   /\ quality_stats error_result = None)
  /\ error (success_result "frame_0001.png" 40 40 [seg_a; seg_b]) = None.
Proof.
  split.
  - apply (result_keys Frame (cv2_of folder) (init false) "frame_0002.png");
      reflexivity.
  - apply (result_keys Frame (cv2_of folder) (init false) "frame_0001.png").
    + apply extract_two_segments.
    + discriminate.
Defined.

(** * Thresholds *)

(** The extractors do not read the thresholds. *)
Lemma all_methods_with_thresholds {Image : Type} (cv2 : Cv2 Image)
    (self : MotionVectorExtractor) (qt ct : R) (frame : Image) :
  all_methods cv2 (with_thresholds self qt ct) frame
  = all_methods cv2 self frame.
Proof. reflexivity. Qed.

(** Lowering [quality_threshold] or [confidence_threshold] leaves the
    detections of the extractors as they are and never removes a vector
    from [filtered_vectors], the list that passes the filter. *)
Lemma filtered_vectors_monotone
    (Image : Type) (cv2 : Cv2 Image) (self : MotionVectorExtractor)
    (qt ct : R) (frame_resized : Image) (scale_back : R)
    (all_vectors : list Vector) (v : Vector) :
  qt <= quality_threshold (params self) ->
  ct <= confidence_threshold (params self) ->
  all_methods cv2 self frame_resized = Ok all_vectors ->
  In v (filter_vectors self (scale_vectors_back scale_back all_vectors)) ->
  all_methods cv2 (with_thresholds self qt ct) frame_resized = Ok all_vectors
  /\ In v (filter_vectors (with_thresholds self qt ct)
             (scale_vectors_back scale_back all_vectors)).
Proof.
  intros Hq Hc Hall Hv.
  split; [now rewrite all_methods_with_thresholds |].
  apply filter_vectors_In in Hv. destruct Hv as (Hin & Hvq & Hvc).
  unfold filter_vectors. apply filter_In. split; [exact Hin |].
  unfold passes_thresholds. simpl.
  destruct (Rge_dec (quality v) qt); [| lra].
  destruct (Rge_dec (confidence v) ct); [reflexivity | lra].
Qed.

(** *** The frame with an arrow on a segment *)

Lemma cos_radians_0 : cos (radians 0) = 1.
Proof.
  unfold radians. replace (0 * PI / 180) with 0 by lra. apply cos_0.
Qed.

Lemma sin_radians_0 : sin (radians 0) = 0.
Proof.
  unfold radians. replace (0 * PI / 180) with 0 by lra. apply sin_0.
Qed.

Lemma ffmpeg_contour_blob (self : MotionVectorExtractor) (range_idx : nat)
    (k : R) :
  params self = params (init false) ->
  0.9 - INR range_idx * 0.1 = k ->
  ffmpeg_contour self range_idx blob = Ok [arrow k].
Proof.
  intros Hp Hk.
  rewrite (ffmpeg_contour_eval self range_idx blob 12 1.5 0 3 4 4.8 0 4.8
             0.28 k); try rewrite Hp; try exact Hk;
    try reflexivity; try (simpl; lra); try (simpl; lia).
  - apply int_IZR; [lia | simpl; lra].
  - apply int_IZR; [lia | simpl; lra].
  - rewrite cos_radians_0, Rmax_left; simpl; lra.
  - rewrite sin_radians_0. lra.
  - simpl. rewrite Rmin_left; lra.
Qed.

Lemma all_methods_arrow_on_segment (files : string -> option Frame)
    (self : MotionVectorExtractor) :
  params self = params (init false) ->
  all_methods (cv2_of files) self arrow_on_segment
  = Ok [arrow 0.9; arrow 0.8; arrow 0.7; seg_a].
Proof.
  intros Hp. unfold all_methods.
  assert (Hf : extract_ffmpeg_vectors (cv2_of files) self arrow_on_segment
               = Ok [arrow 0.9; arrow 0.8; arrow 0.7]).
  { unfold extract_ffmpeg_vectors.
    cbn [for_extend bind green_ranges cvtColor_HSV findContours cv2_of
         arrow_on_segment frame_contours].
    rewrite (ffmpeg_contour_blob self 0%nat 0.9 Hp) by (simpl; lra).
    rewrite (ffmpeg_contour_blob self 1%nat 0.8 Hp) by (simpl; lra).
    rewrite (ffmpeg_contour_blob self 2%nat 0.7 Hp) by (simpl; lra).
    reflexivity. }
  rewrite Hf. cbn [bind].
  rewrite (extract_optical_flow_vectors_still _ _ _ 40 40) by reflexivity.
  cbn [bind]. unfold extract_edge_vectors.
  cbn [bind cvtColor_GRAY HoughLinesP cv2_of arrow_on_segment frame_lines
       flat_map].
  rewrite (edge_line_eval self 0 0 6 8 (3, 4)%Z 3 4 5 10 (1 / 3));
    try rewrite Hp; try (simpl; lra); try reflexivity.
  rewrite Rmin_left; lra.
Qed.

Lemma dist_same_center (a b : Vector) :
  center a = center b -> dist (center a) (center b) = 0.
Proof.
  intros ->. apply dist_eq; [lra |].
  replace ((fst (center b) - fst (center b)) ^ 2
           + (snd (center b) - snd (center b)) ^ 2)%Z with 0%Z by ring.
  lra.
Qed.

Lemma remove_duplicates_from_accept (n : nat) (s : R) (v : Vector)
    (rest : list (R * Vector)) (final_vectors : list Vector) :
  is_duplicate v final_vectors = false ->
  (n <=? List.length (final_vectors ++ [v]))%nat = false ->
  remove_duplicates_from n ((s, v) :: rest) final_vectors
  = remove_duplicates_from n rest (final_vectors ++ [v]).
Proof. intros Hd Hn. simpl. now rewrite Hd, Hn. Qed.

Lemma remove_duplicates_from_skip (n : nat) (s : R) (v : Vector)
    (rest : list (R * Vector)) (final_vectors : list Vector) :
  is_duplicate v final_vectors = true ->
  remove_duplicates_from n ((s, v) :: rest) final_vectors
  = remove_duplicates_from n rest final_vectors.
Proof. intros Hd. simpl. now rewrite Hd. Qed.

Lemma is_duplicate_near (v existing : Vector) (rest : list Vector) :
  dist (center v) (center existing) < 15 ->
  is_duplicate v (existing :: rest) = true.
Proof.
  intros Hd. unfold is_duplicate. simpl.
  destruct (Rlt_dec _ 15); [reflexivity | contradiction].
Qed.

(** With the thresholds of [__init__] the arrow fails the quality test
    and the segment is accepted. *)
Lemma fuse_arrow_on_segment_high :
  fuse (init false) 1 [arrow 0.9; arrow 0.8; arrow 0.7; seg_a] = [seg_a].
Proof.
  unfold fuse, scale_vectors_back.
  destruct (Req_dec_T 1 1) as [_ | H]; [| now elim H].
  assert (Hfilt : filter_vectors (init false)
                    [arrow 0.9; arrow 0.8; arrow 0.7; seg_a] = [seg_a]).
  { unfold filter_vectors, passes_thresholds. simpl. real_cases.
    reflexivity. }
  rewrite Hfilt. reflexivity.
Qed.

(** With a quality threshold of 0.2 the arrow passes, scores higher than
    the segment and makes it a duplicate. *)
Lemma fuse_arrow_on_segment_low :
  fuse (with_thresholds (init false) 0.2 0.4) 1
       [arrow 0.9; arrow 0.8; arrow 0.7; seg_a]
  = [arrow 0.9].
Proof.
  unfold fuse, scale_vectors_back.
  destruct (Req_dec_T 1 1) as [_ | H]; [| now elim H].
  assert (Hfilt : filter_vectors (with_thresholds (init false) 0.2 0.4)
                    [arrow 0.9; arrow 0.8; arrow 0.7; seg_a]
                  = [arrow 0.9; arrow 0.8; arrow 0.7; seg_a]).
  { unfold filter_vectors, passes_thresholds. simpl. real_cases.
    reflexivity. }
  rewrite Hfilt.
  assert (Hsort : scored_vectors [arrow 0.9; arrow 0.8; arrow 0.7; seg_a]
                  = [(0.28 * 0.9, arrow 0.9); (0.28 * 0.8, arrow 0.8);
                     (1 / 3 * 0.6, seg_a); (0.28 * 0.7, arrow 0.7)]).
  { unfold scored_vectors, sort_reverse.
    repeat (progress (simpl; real_cases)). reflexivity. }
  rewrite Hsort. unfold remove_duplicates.
  rewrite remove_duplicates_from_accept by reflexivity.
  repeat (rewrite remove_duplicates_from_skip
            by (apply is_duplicate_near;
                rewrite dist_same_center by reflexivity; lra)).
  reflexivity.
Qed.

Lemma extract_arrow_on_segment (self : MotionVectorExtractor) :
  params self = params (init false)
  \/ self = with_thresholds (init false) 0.2 0.4 ->
  extract_motion_vectors_from_frame (cv2_of arrow_folder) self "arrow.png"
  = Ok (success_result "arrow.png" 40 40
          (fuse self 1 [arrow 0.9; arrow 0.8; arrow 0.7; seg_a])).
Proof.
  intros Hp.
  unfold extract_motion_vectors_from_frame.
  change (imread (cv2_of arrow_folder) "arrow.png")
    with (Some arrow_on_segment).
  cbv beta iota.
  assert (Hs : shape (cv2_of arrow_folder) arrow_on_segment = (40, 40)%Z)
    by reflexivity.
  assert (Hr : resize_for_processing (cv2_of arrow_folder) arrow_on_segment
               = Ok (arrow_on_segment, 1)) by reflexivity.
  rewrite Hs, Hr. cbn [bind].
  destruct Hp as [Hp | ->].
  - now rewrite all_methods_arrow_on_segment.
  - rewrite all_methods_with_thresholds.
    now rewrite all_methods_arrow_on_segment.
Qed.

(** C2, as stated, fails: on [arrow_on_segment] the segment is accepted
    with the quality threshold 0.3 and is no longer accepted with 0.2. *)
Lemma threshold_monotone_fails : ~ threshold_monotone.
Proof.
  intros H.
  specialize (H Frame (cv2_of arrow_folder) (init false) 0.2 0.4
                "arrow.png"%string
                (success_result "arrow.png" 40 40 [seg_a])
                (success_result "arrow.png" 40 40 [arrow 0.9])
                seg_a).
  assert (Hin : In seg_a [arrow 0.9]).
  { apply H.
    - simpl. lra.
    - simpl. lra.
    - rewrite extract_arrow_on_segment by now left.
      now rewrite fuse_arrow_on_segment_high.
    - rewrite extract_arrow_on_segment by now right.
      now rewrite fuse_arrow_on_segment_low.
    - now left. }
  destruct Hin as [Heq | []].
  apply (f_equal method) in Heq. discriminate Heq.
Qed.

(** * Configuration *)

Lemma fuse_nil (self : MotionVectorExtractor) (scale_back : R) :
  fuse self scale_back [] = [].
Proof.
  unfold fuse, scale_vectors_back.
  destruct (Req_dec_T scale_back 1); reflexivity.
Qed.

(** With a minimum above the maximum no extractor appends anything. *)
Lemma all_methods_inverted {Image : Type} (cv2 : Cv2 Image)
    (self : MotionVectorExtractor) (frame : Image) (vs : list Vector) :
  0 <= max_vector_length (params self) ->
  min_vector_length (params self) > max_vector_length (params self) ->
  all_methods cv2 self frame = Ok vs -> vs = [].
Proof.
  intros Hmax Hinv H.
  apply all_methods_well_formed in H; [| exact Hmax].
  destruct vs as [| v rest]; [reflexivity |].
  inversion H as [| ? ? [_ [Hlo Hhi]] _]; subst. lra.
Qed.

Lemma extract_inverted :
  extract_motion_vectors_from_frame (cv2_of folder)
    (with_min_vector_length (init false) 20) "frame_0001.png"
  = Ok (success_result "frame_0001.png" 40 40 []).
Proof.
  set (self := with_min_vector_length (init false) 20).
  assert (Hall : exists vs,
             all_methods (cv2_of folder) self two_segments = Ok vs).
  { unfold all_methods.
    assert (Hf : extract_ffmpeg_vectors (cv2_of folder) self two_segments
                 = Ok []) by reflexivity.
    rewrite Hf. cbn [bind].
    rewrite (extract_optical_flow_vectors_still _ _ _ 40 40) by reflexivity.
    cbn [bind]. unfold extract_edge_vectors.
    cbn [bind cvtColor_GRAY HoughLinesP cv2_of two_segments frame_lines].
    eexists. reflexivity. }
  destruct Hall as [vs Hall].
  assert (Hnil : vs = []).
  { apply (all_methods_inverted (cv2_of folder) self two_segments);
      [simpl; lra | simpl; lra | exact Hall]. }
  subst vs.
  unfold extract_motion_vectors_from_frame.
  change (imread (cv2_of folder) "frame_0001.png") with (Some two_segments).
  cbv beta iota.
  assert (Hs : shape (cv2_of folder) two_segments = (40, 40)%Z)
    by reflexivity.
  assert (Hr : resize_for_processing (cv2_of folder) two_segments
               = Ok (two_segments, 1)) by reflexivity.
  rewrite Hs, Hr. cbn [bind]. rewrite Hall. cbn [bind].
  now rewrite fuse_nil.
Qed.

(** * Vectors of a downscaled frame *)

(** On a frame that is not resized the accepted vectors are within the
    configured bounds. *)
Lemma accepted_within_bounds_at_full_size {Image : Type} (cv2 : Cv2 Image)
    (self : MotionVectorExtractor) (frame : Image)
    (all_vectors : list Vector) :
  0 <= max_vector_length (params self) ->
  all_methods cv2 self frame = Ok all_vectors ->
  Forall (within_bounds (params self)) (fuse self 1 all_vectors).
Proof.
  intros Hmax Hall. apply fuse_Forall. unfold scale_vectors_back.
  destruct (Req_dec_T 1 1) as [_ | H]; [| now elim H].
  apply (all_methods_well_formed cv2 self frame) in Hall; [| exact Hmax].
  revert Hall. apply Forall_impl. now intros v [_ Hv].
Qed.

Lemma resize_large_frame :
  resize_for_processing (cv2_of large_folder) large_frame
  = Ok (large_frame_resized, IZR 1200 / 600).
Proof.
  unfold resize_for_processing.
  assert (Hs : shape (cv2_of large_folder) large_frame = (1200, 1200)%Z)
    by reflexivity.
  rewrite Hs.
  change (Z.max 1200 1200) with 1200%Z.
  change (600 <? 1200)%Z with true. cbv beta iota.
  rewrite (int_IZR 600); [| lia | lra]. reflexivity.
Qed.

Lemma all_methods_large_frame :
  all_methods (cv2_of large_folder) (init false) large_frame_resized
  = Ok [seg_long].
Proof.
  unfold all_methods.
  assert (Hf : extract_ffmpeg_vectors (cv2_of large_folder) (init false)
                 large_frame_resized = Ok []) by reflexivity.
  rewrite Hf. cbn [bind].
  rewrite (extract_optical_flow_vectors_still _ _ _ 600 600)
    by reflexivity.
  cbn [bind]. unfold extract_edge_vectors.
  cbn [bind cvtColor_GRAY HoughLinesP cv2_of large_frame_resized frame_lines
       flat_map].
  rewrite (edge_line_eval (init false) 0 0 18 24 (9, 12)%Z 9 12 15 30 1);
    try (simpl; lra); try reflexivity.
  rewrite Rmin_left; lra.
Qed.

Lemma fuse_large_frame :
  fuse (init false) (IZR 1200 / 600) [seg_long]
  = [scale_vector (IZR 1200 / 600) seg_long].
Proof.
  unfold fuse, scale_vectors_back.
  destruct (Req_dec_T (IZR 1200 / 600) 1) as [H | _]; [lra |].
  cbn [map].
  assert (Hfilt : filter_vectors (init false)
                    [scale_vector (IZR 1200 / 600) seg_long]
                  = [scale_vector (IZR 1200 / 600) seg_long]).
  { unfold filter_vectors, passes_thresholds. simpl. real_cases.
    reflexivity. }
  rewrite Hfilt. reflexivity.
Qed.

(** C1 at a downscaled frame: on the 1200 x 1200 frame [large_frame] the
    segment of length 30 gives a vector of length 15 at the working size,
    within the bounds; mapped back by [scale_back * 0.8 = 1.6] it is
    returned with [magnitude] and direction norm 24, above
    [max_vector_length = 18]. *)
Theorem downscaled_vector_exceeds_max_vector_length :
  exists r v,
    extract_motion_vectors_from_frame (cv2_of large_folder) (init false)
      "large.png" = Ok r
    /\ error r = None
    /\ vectors r = [v]
    /\ magnitude v = 24
    /\ hypot (fst (direction v)) (snd (direction v)) = 24
    /\ max_vector_length (params (init false)) = 18.
Proof.
  exists (success_result "large.png" 1200 1200
            [scale_vector (IZR 1200 / 600) seg_long]).
  exists (scale_vector (IZR 1200 / 600) seg_long).
  split; [| split; [reflexivity | split; [reflexivity | split; [| split]]]].
  - unfold extract_motion_vectors_from_frame.
    change (imread (cv2_of large_folder) "large.png")
      with (Some large_frame).
    cbv beta iota.
    assert (Hs : shape (cv2_of large_folder) large_frame
                 = (1200, 1200)%Z) by reflexivity.
    rewrite Hs, resize_large_frame. cbn [bind].
    rewrite all_methods_large_frame. cbn [bind].
    now rewrite fuse_large_frame.
  - simpl. lra.
  - simpl. apply hypot_eq; lra.
  - reflexivity.
Qed.

(** * Exceptions of the extractors *)

(** The optical-flow extractor catches what
    [cv2.calcOpticalFlowFarneback] raises. *)
Lemma flow_exception_caught {Image : Type} (cv2 : Cv2 Image)
    (self : MotionVectorExtractor) (frame : Image) (e : string) :
  cvtColor_GRAY cv2 frame = Ok tt ->
  calcOpticalFlowFarneback cv2 frame = Raise e ->
  extract_optical_flow_vectors cv2 self frame = Ok [].
Proof.
  intros Hg Hf. unfold extract_optical_flow_vectors.
  now rewrite Hg, Hf.
Qed.

(** What [extract_ffmpeg_vectors] or [extract_edge_vectors] raises leaves
    the per-frame function. *)
Lemma extractor_exception_escapes {Image : Type} (cv2 : Cv2 Image)
    (self : MotionVectorExtractor) (path : string)
    (frame frame_resized : Image) (scale_back : R) (e : string) :
  imread cv2 path = Some frame ->
  resize_for_processing cv2 frame = Ok (frame_resized, scale_back) ->
  extract_ffmpeg_vectors cv2 self frame_resized = Raise e
  \/ (exists a b,
        extract_ffmpeg_vectors cv2 self frame_resized = Ok a
        /\ extract_optical_flow_vectors cv2 self frame_resized = Ok b
        /\ extract_edge_vectors cv2 self frame_resized = Raise e) ->
  extract_motion_vectors_from_frame cv2 self path = Raise e.
Proof.
  intros Hread Hresize H.
  unfold extract_motion_vectors_from_frame. rewrite Hread.
  destruct (shape cv2 frame) as [h w]. rewrite Hresize. cbn [bind].
  unfold all_methods.
  destruct H as [Hf | (a & b & Hf & Hfl & He)].
  - now rewrite Hf.
  - now rewrite Hf, Hfl, He.
Qed.

(** C4 at a frame on which [cv2.HoughLinesP] raises: the edge extractor
    has no [try], the exception leaves [extract_edge_vectors], the
    per-frame function and the batch, whose second (readable) frame is
    not processed. *)
Theorem edge_exception_propagates :
  extract_edge_vectors (cv2_of failing_folder) (init false) hough_raises
  = Raise "cv2.error: HoughLinesP"
  /\ extract_motion_vectors_from_frame (cv2_of failing_folder) (init false)
       "frame_0001.png"
     = Raise "cv2.error: HoughLinesP"
  /\ process_all_frames (cv2_of failing_folder) (init false)
       ["frame_0001.png"; "frame_0002.png"]%string
     = Raise "cv2.error: HoughLinesP".
Proof.
  assert (He : extract_edge_vectors (cv2_of failing_folder) (init false)
                 hough_raises = Raise "cv2.error: HoughLinesP")
    by reflexivity.
  assert (Hx : extract_motion_vectors_from_frame (cv2_of failing_folder)
                 (init false) "frame_0001.png"
               = Raise "cv2.error: HoughLinesP").
  { unfold extract_motion_vectors_from_frame.
    change (imread (cv2_of failing_folder) "frame_0001.png")
      with (Some hough_raises).
    cbv beta iota.
    assert (Hs : shape (cv2_of failing_folder) hough_raises = (40, 40)%Z)
      by reflexivity.
    assert (Hr : resize_for_processing (cv2_of failing_folder) hough_raises
                 = Ok (hough_raises, 1)) by reflexivity.
    rewrite Hs, Hr. cbn [bind]. unfold all_methods.
    assert (Hf : extract_ffmpeg_vectors (cv2_of failing_folder) (init false)
                   hough_raises = Ok []) by reflexivity.
    rewrite Hf. cbn [bind].
    rewrite (extract_optical_flow_vectors_still _ _ _ 40 40)
      by reflexivity.
    cbn [bind]. now rewrite He. }
  split; [exact He | split; [exact Hx |]].
  rewrite process_all_frames_loop. cbn [for_extend]. now rewrite Hx.
Qed.

(** * Further properties of the fusion *)

Lemma subseq_refl {A : Type} (l : list A) : subseq l l.
Proof.
  induction l as [| x l IH]; [apply subseq_nil | now apply subseq_keep].
Qed.

Lemma subseq_In {A : Type} (l1 l2 : list A) (x : A) :
  subseq l1 l2 -> In x l1 -> In x l2.
Proof.
  induction 1 as [| y l1 l2 _ IH | y l1 l2 _ IH]; simpl; intuition.
Qed.

Lemma subseq_app_skip {A : Type} (l1 l2 : list A) (x : A) :
  subseq (l1 ++ l2) (l1 ++ x :: l2).
Proof.
  induction l1 as [| y l1 IH]; simpl.
  - apply subseq_skip, subseq_refl.
  - now apply subseq_keep.
Qed.

Lemma subseq_app_prefix {A : Type} (l1 l2 : list A) :
  subseq l1 (l1 ++ l2).
Proof.
  induction l1 as [| y l1 IH]; simpl.
  - induction l2; constructor; auto.
  - now apply subseq_keep.
Qed.

Lemma subseq_trans {A : Type} (l1 l2 l3 : list A) :
  subseq l1 l2 -> subseq l2 l3 -> subseq l1 l3.
Proof.
  intros H12 H23. revert l1 H12.
  induction H23 as [| x l2 l3 _ IH | x l2 l3 _ IH]; intros l1 H12.
  - exact H12.
  - apply subseq_skip. now apply IH.
  - inversion H12; subst.
    + apply subseq_skip. now apply IH.
    + apply subseq_keep. now apply IH.
Qed.

Lemma subseq_ForallOrdPairs {A : Type} (P : A -> A -> Prop)
    (l1 l2 : list A) :
  subseq l1 l2 -> ForallOrdPairs P l2 -> ForallOrdPairs P l1.
Proof.
  induction 1 as [| x l1 l2 Hs IH | x l1 l2 Hs IH]; intros H2.
  - constructor.
  - inversion H2; subst. auto.
  - inversion H2 as [| ? ? Hx Hrest]; subst. constructor; [| auto].
    rewrite Forall_forall in *. intros y Hy. apply Hx.
    eapply subseq_In; eauto.
Qed.

(** The deduplication keeps [final_vectors], then picks from the scored
    list in its order. *)
Lemma remove_duplicates_from_subseq (n : nat) (scored : list (R * Vector))
    (final_vectors : list Vector) :
  subseq (remove_duplicates_from n scored final_vectors)
         (final_vectors ++ map snd scored).
Proof.
  revert final_vectors.
  induction scored as [| [s w] rest IH]; simpl; intros fin.
  - rewrite app_nil_r. apply subseq_refl.
  - destruct (is_duplicate w fin).
    + eapply subseq_trans; [apply IH | apply subseq_app_skip].
    + assert (Heq : fin ++ w :: map snd rest
                    = (fin ++ [w]) ++ map snd rest)
        by now rewrite <- app_assoc.
      rewrite Heq.
      destruct (n <=? _)%nat; [apply subseq_app_prefix | apply IH].
Qed.

Lemma remove_duplicates_from_keeps (n : nat) (scored : list (R * Vector))
    (final_vectors : list Vector) (w : Vector) :
  In w final_vectors ->
  In w (remove_duplicates_from n scored final_vectors).
Proof.
  revert final_vectors.
  induction scored as [| [s v] rest IH]; simpl; intros fin Hw; [exact Hw |].
  destruct (is_duplicate v fin); [now apply IH |].
  assert (Hw' : In w (fin ++ [v])) by (apply in_app_iff; now left).
  destruct (n <=? _)%nat; [exact Hw' | now apply IH].
Qed.

Lemma is_duplicate_true (v : Vector) (final_vectors : list Vector) :
  is_duplicate v final_vectors = true ->
  exists existing,
    In existing final_vectors
    /\ dist (center v) (center existing) < 15.
Proof.
  unfold is_duplicate. intros H. apply existsb_exists in H.
  destruct H as (e & He & Hd). exists e. split; [exact He |].
  now destruct (Rlt_dec (dist (center v) (center e)) 15).
Qed.

(** Below the cap, every scored detection has an accepted one within the
    deduplication distance. *)
Lemma remove_duplicates_from_covers (n : nat) (scored : list (R * Vector))
    (final_vectors : list Vector) (s : R) (v : Vector) :
  (List.length (remove_duplicates_from n scored final_vectors) < n)%nat ->
  In (s, v) scored ->
  exists w,
    In w (remove_duplicates_from n scored final_vectors)
    /\ dist (center v) (center w) < 15.
Proof.
  revert final_vectors.
  induction scored as [| [s0 v0] rest IH]; simpl; intros fin Hlen Hin;
    [contradiction |].
  destruct (is_duplicate v0 fin) eqn:Hdup.
  - destruct Hin as [[= -> ->] | Hin]; [| now apply IH].
    destruct (is_duplicate_true _ _ Hdup) as (e & He & Hd).
    exists e. split; [| exact Hd].
    now apply remove_duplicates_from_keeps.
  - destruct (n <=? List.length (fin ++ [v0]))%nat eqn:Hcap.
    + apply Nat.leb_le in Hcap. lia.
    + destruct Hin as [[= -> ->] | Hin]; [| now apply IH].
      exists v. split.
      * apply remove_duplicates_from_keeps, in_app_iff. right. now left.
      * rewrite dist_same_center by reflexivity. lra.
Qed.

Lemma sort_reverse_length (l : list (R * Vector)) :
  List.length (sort_reverse l) = List.length l.
Proof.
  induction l as [| x rest IH]; simpl; [reflexivity |].
  rewrite <- IH. generalize (sort_reverse rest). intros sorted.
  induction sorted as [| y more IHs]; simpl; [reflexivity |].
  destruct (Rgt_dec (fst y) (fst x)); simpl; [now rewrite IHs | reflexivity].
Qed.

Lemma remove_duplicates_nil_iff (n : nat) (scored : list (R * Vector)) :
  remove_duplicates n scored = [] <-> scored = [].
Proof.
  unfold remove_duplicates. split; [| now intros ->].
  destruct scored as [| [s v] rest]; [reflexivity |]. simpl.
  intros H. exfalso.
  assert (Hv : In v (if (n <=? 1)%nat then [v]
                     else remove_duplicates_from n rest [v])).
  { destruct (n <=? 1)%nat; [now left |].
    apply remove_duplicates_from_keeps. now left. }
  rewrite H in Hv. contradiction.
Qed.

Lemma ForallOrdPairs_and_Forall {A : Type} (P : A -> A -> Prop)
    (Q : A -> Prop) (l : list A) :
  ForallOrdPairs P l -> Forall Q l ->
  ForallOrdPairs (fun a b => P a b /\ Q a /\ Q b) l.
Proof.
  induction 1 as [| x l Hx Hl IH]; intros HQ; [constructor |].
  inversion HQ as [| ? ? Qx Ql]; subst. constructor; [| auto].
  rewrite Forall_forall in *. intros y Hy. auto.
Qed.

Lemma scored_vectors_sorted {Image : Type} (cv2 : Cv2 Image)
    (self : MotionVectorExtractor) (frame_resized : Image) (scale_back : R)
    (all_vectors : list Vector) :
  all_methods cv2 self frame_resized = Ok all_vectors ->
  ForallOrdPairs precedes
    (scored_vectors
       (filter_vectors self (scale_vectors_back scale_back all_vectors))).
Proof.
  intros Hall.
  apply StronglySorted_ForallOrdPairs. unfold scored_vectors.
  apply sort_reverse_sorted. apply StronglySorted_ForallOrdPairs.
  apply ForallOrdPairs_map
    with (P := fun a b => (method_rank (method a)
                           <= method_rank (method b))%nat);
    [now intros x y |].
  unfold filter_vectors. apply ForallOrdPairs_filter.
  apply (all_methods_ranked cv2 self) in Hall.
  unfold scale_vectors_back.
  destruct (Req_dec_T scale_back 1); [exact Hall |].
  revert Hall. apply ForallOrdPairs_map. intros x y.
  now rewrite !scale_vector_method.
Qed.

Lemma scored_vectors_score (l : list Vector) :
  Forall (fun sv => fst sv = quality (snd sv) * confidence (snd sv))
         (scored_vectors l).
Proof.
  rewrite Forall_forall. intros sv Hsv. unfold scored_vectors in Hsv.
  apply sort_reverse_In, in_map_iff in Hsv.
  now destruct Hsv as (v & <- & _).
Qed.

(** X1: the returned [vectors] are in descending order of score
    [quality * confidence]; of two returned vectors with the same score the
    earlier one has a method of no lower priority (FFmpeg, flow, edge). *)
Theorem returned_in_score_order
    (Image : Type) (cv2 : Cv2 Image) (self : MotionVectorExtractor)
    (path : string) (r : FrameResult) (i j : nat) (v1 v2 : Vector) :
  extract_motion_vectors_from_frame cv2 self path = Ok r ->
  (i < j)%nat ->
  nth_error (vectors r) i = Some v1 ->
  nth_error (vectors r) j = Some v2 ->
  quality v1 * confidence v1 >= quality v2 * confidence v2
  /\ (quality v1 * confidence v1 = quality v2 * confidence v2 ->
      (method_rank (method v1) <= method_rank (method v2))%nat).
Proof.
  intros H Hij Hi Hj.
  destruct (extract_motion_vectors_from_frame_inv cv2 self path r H)
    as [[_ ->] | (frame & fr & sb & all & _ & _ & Hall & ->)].
  - now destruct i.
  - simpl in Hi, Hj. unfold fuse, remove_duplicates in Hi, Hj.
    set (scored := scored_vectors
                     (filter_vectors self (scale_vectors_back sb all)))
      in *.
    pose proof (remove_duplicates_from_subseq
                  (max_vectors_per_frame (params self)) scored []) as Hsub.
    simpl in Hsub.
    assert (Hord : ForallOrdPairs
              (fun a b =>
                 quality a * confidence a >= quality b * confidence b
                 /\ (quality a * confidence a = quality b * confidence b ->
                     (method_rank (method a) <= method_rank (method b))%nat))
              (map snd scored)).
    { apply ForallOrdPairs_map
        with (P := fun a b =>
                     precedes a b
                     /\ fst a = quality (snd a) * confidence (snd a)
                     /\ fst b = quality (snd b) * confidence (snd b)).
      - intros a b (Hp & Ha & Hb). rewrite <- Ha, <- Hb.
        destruct Hp as [Hgt | [Heq Hrank]].
        + split; [lra |]. intros Heq. lra.
        + split; [lra |]. intros _. exact Hrank.
      - apply ForallOrdPairs_and_Forall.
        + now apply (scored_vectors_sorted cv2 self fr).
        + apply scored_vectors_score. }
    apply (subseq_ForallOrdPairs _ _ _ Hsub) in Hord.
    exact (ForallOrdPairs_nth _ _ Hord i j v1 v2 Hij Hi Hj).
Qed.

Lemma returned_in_score_order_witness :
  quality seg_a * confidence seg_a >= quality seg_b * confidence seg_b
  /\ (quality seg_a * confidence seg_a = quality seg_b * confidence seg_b ->
      (method_rank (method seg_a) <= method_rank (method seg_b))%nat).
Proof.
  apply (returned_in_score_order Frame (cv2_of folder) (init false)
           "frame_0001.png"
           (success_result "frame_0001.png" 40 40 [seg_a; seg_b])
           0%nat 1%nat).
  - apply extract_two_segments.
  - lia.
  - reflexivity.
  - reflexivity.
Defined.

(** X2: as long as the returned list is shorter than
    [max_vectors_per_frame], no detection that passed the filter is lost
    without a reason: each has a returned vector (possibly itself) whose
    center is less than 15 pixels from its own. *)
Theorem suppressed_detection_is_covered
    (self : MotionVectorExtractor) (scale_back : R)
    (all_vectors : list Vector) (v : Vector) :
  In v (filter_vectors self (scale_vectors_back scale_back all_vectors)) ->
  (List.length (fuse self scale_back all_vectors)
   < max_vectors_per_frame (params self))%nat ->
  exists w,
    In w (fuse self scale_back all_vectors)
    /\ dist (center v) (center w) < 15.
Proof.
  intros Hv Hlen. unfold fuse, remove_duplicates in *.
  apply (remove_duplicates_from_covers _ _ _
           (quality v * confidence v) v Hlen).
  unfold scored_vectors. apply sort_reverse_In, in_map_iff.
  now exists v.
Qed.

Lemma suppressed_detection_is_covered_witness :
  exists w,
    In w (fuse (init false) 1 [seg_a; seg_b])
    /\ dist (center seg_b) (center w) < 15.
Proof.
  apply (suppressed_detection_is_covered (init false) 1 [seg_a; seg_b]).
  - unfold scale_vectors_back.
    destruct (Req_dec_T 1 1) as [_ | H]; [| now elim H].
    unfold filter_vectors, passes_thresholds. simpl. real_cases.
    right. now left.
  - rewrite fuse_two_segments. simpl. lia.
Defined.

Lemma insert_scored_descending (x : R * Vector) (l : list (R * Vector)) :
  ForallOrdPairs (fun a b => fst a >= fst b) l ->
  ForallOrdPairs (fun a b => fst a >= fst b) (insert_scored x l).
Proof.
  induction 1 as [| y rest Hy Hrest IH]; simpl.
  - repeat constructor.
  - rewrite Forall_forall in Hy.
    destruct (Rgt_dec (fst y) (fst x)) as [Hgt | Hle].
    + constructor; [| exact IH].
      rewrite Forall_forall. intros z Hz.
      apply insert_scored_In in Hz. destruct Hz as [-> | Hz]; [lra | auto].
    + constructor.
      * constructor; [lra |].
        rewrite Forall_forall. intros z Hz. specialize (Hy z Hz). lra.
      * constructor; [now rewrite Forall_forall | exact Hrest].
Qed.

(** Whatever the list, the sort leaves the scores in descending order. *)
Lemma sort_reverse_descending (l : list (R * Vector)) :
  ForallOrdPairs (fun a b => fst a >= fst b) (sort_reverse l).
Proof.
  induction l as [| x rest IH]; simpl; [constructor |].
  now apply insert_scored_descending.
Qed.

Lemma remove_duplicates_from_prefix (n : nat) (scored : list (R * Vector))
    (final_vectors : list Vector) :
  exists tail,
    remove_duplicates_from n scored final_vectors = final_vectors ++ tail.
Proof.
  revert final_vectors.
  induction scored as [| [s v] rest IH]; simpl; intros fin.
  - exists []. now rewrite app_nil_r.
  - destruct (is_duplicate v fin); [apply IH |].
    destruct (n <=? _)%nat; [now exists [v] |].
    destruct (IH (fin ++ [v])) as [tail Ht].
    exists (v :: tail). rewrite Ht. now rewrite <- app_assoc.
Qed.

(** X3: the returned list is empty exactly when no detection passes the
    quality and confidence filter; when some detection passes, the first
    returned vector is a passing detection of the greatest score
    [quality * confidence], whatever the cap. *)
Theorem best_detection_is_returned (self : MotionVectorExtractor)
    (scale_back : R) (all_vectors : list Vector) :
  (fuse self scale_back all_vectors = []
   <-> filter_vectors self (scale_vectors_back scale_back all_vectors) = [])
  /\ (filter_vectors self (scale_vectors_back scale_back all_vectors) <> [] ->
      exists best rest,
        fuse self scale_back all_vectors = best :: rest
        /\ In best (filter_vectors self
                      (scale_vectors_back scale_back all_vectors))
        /\ forall u,
            In u (filter_vectors self
                    (scale_vectors_back scale_back all_vectors)) ->
            quality best * confidence best >= quality u * confidence u).
Proof.
  set (filtered := filter_vectors self
                     (scale_vectors_back scale_back all_vectors)).
  assert (Hlen : List.length (scored_vectors filtered)
                 = List.length filtered).
  { unfold scored_vectors. now rewrite sort_reverse_length, length_map. }
  split.
  - unfold fuse. fold filtered. rewrite remove_duplicates_nil_iff. split.
    + intros H. rewrite H in Hlen. symmetry in Hlen.
      now apply length_zero_iff_nil.
    + now intros ->.
  - intros Hne. unfold fuse. fold filtered.
    pose proof (scored_vectors_score filtered) as Hscore.
    pose proof (sort_reverse_descending
                  (map (fun v => (quality v * confidence v, v)) filtered))
      as Hsorted.
    fold (scored_vectors filtered) in Hsorted.
    assert (Hin : forall s v, In (s, v) (scored_vectors filtered) ->
                              In v filtered)
      by (intros s v; apply scored_vectors_In).
    assert (Hall : forall u, In u filtered ->
                   In (quality u * confidence u, u) (scored_vectors filtered)).
    { intros u Hu. unfold scored_vectors.
      apply sort_reverse_In, in_map_iff. now exists u. }
    destruct (scored_vectors filtered) as [| [s best] more].
    + destruct filtered; [now elim Hne | discriminate].
    + apply Forall_inv in Hscore. simpl in Hscore.
      assert (Hhead : Forall (fun b => fst (s, best) >= fst b) more)
        by now inversion Hsorted.
      rewrite Forall_forall in Hhead. simpl in Hhead.
      unfold remove_duplicates. simpl.
      assert (Hfirst : exists rest,
                 (if (max_vectors_per_frame (params self) <=? 1)%nat
                  then [best]
                  else remove_duplicates_from
                         (max_vectors_per_frame (params self)) more [best])
                 = best :: rest).
      { destruct (_ <=? 1)%nat; [now exists [] |].
        destruct (remove_duplicates_from_prefix
                    (max_vectors_per_frame (params self)) more [best])
          as [tail Ht].
        exists tail. now rewrite Ht. }
      destruct Hfirst as [rest Hrest]. exists best, rest.
      split; [exact Hrest |]. split; [apply (Hin s); now left |].
      intros u Hu. destruct (Hall u Hu) as [[= Hsu ->] | Hmore].
      * lra.
      * specialize (Hhead _ Hmore). simpl in Hhead. lra.
Qed.

Lemma best_detection_is_returned_witness :
  exists best rest,
    fuse (init false) 1 [arrow 0.9; arrow 0.8; arrow 0.7; seg_a]
    = best :: rest
    /\ In best (filter_vectors (init false)
                  (scale_vectors_back 1
                     [arrow 0.9; arrow 0.8; arrow 0.7; seg_a]))
    /\ forall u,
        In u (filter_vectors (init false)
                (scale_vectors_back 1
                   [arrow 0.9; arrow 0.8; arrow 0.7; seg_a])) ->
        quality best * confidence best >= quality u * confidence u.
Proof.
  apply (best_detection_is_returned (init false) 1
           [arrow 0.9; arrow 0.8; arrow 0.7; seg_a]).
  intros H.
  assert (Hin : In seg_a
                  (filter_vectors (init false)
                     (scale_vectors_back 1
                        [arrow 0.9; arrow 0.8; arrow 0.7; seg_a]))).
  { unfold scale_vectors_back.
    destruct (Req_dec_T 1 1) as [_ | Hn]; [| now elim Hn].
    unfold filter_vectors, passes_thresholds. simpl. real_cases.
    now left. }
  rewrite H in Hin. contradiction.
Defined.

(** X4: every returned vector has a quality of at least
    [quality_threshold] and a confidence of at least
    [confidence_threshold]. *)
Theorem returned_vectors_pass_thresholds
    (Image : Type) (cv2 : Cv2 Image) (self : MotionVectorExtractor)
    (path : string) (r : FrameResult) (v : Vector) :
  extract_motion_vectors_from_frame cv2 self path = Ok r ->
  In v (vectors r) ->
  quality v >= quality_threshold (params self)
  /\ confidence v >= confidence_threshold (params self).
Proof.
  intros H Hv.
  destruct (extract_motion_vectors_from_frame_inv cv2 self path r H)
    as [[_ ->] | (frame & fr & sb & all & _ & _ & _ & ->)];
    [contradiction |].
  simpl in Hv. unfold fuse, remove_duplicates in Hv.
  apply remove_duplicates_from_In in Hv. destruct Hv as [[] | [s Hs]].
  apply scored_vectors_In in Hs. now apply filter_vectors_In in Hs.
Qed.

Lemma returned_vectors_pass_thresholds_witness :
  quality seg_a >= quality_threshold (params (init false))
  /\ confidence seg_a >= confidence_threshold (params (init false)).
Proof.
  apply (returned_vectors_pass_thresholds Frame (cv2_of folder) (init false)
           "frame_0001.png"
           (success_result "frame_0001.png" 40 40 [seg_a; seg_b])).
  - apply extract_two_segments.
  - now left.
Defined.

(** * Frame statistics *)

Lemma Method_eqb_eq (a b : Method) : Method_eqb a b = true <-> a = b.
Proof. destruct a, b; simpl; split; congruence. Qed.

Lemma get_setitem_same (counts : list (Method * nat)) (m : Method)
    (n d : nat) :
  get (setitem counts m n) m d = n.
Proof.
  induction counts as [| [k n0] rest IH]; simpl.
  - now rewrite (proj2 (Method_eqb_eq m m) eq_refl).
  - destruct (Method_eqb k m) eqn:Hk; simpl; now rewrite Hk.
Qed.

Lemma get_setitem_other (counts : list (Method * nat)) (m m' : Method)
    (n d : nat) :
  m <> m' -> get (setitem counts m n) m' d = get counts m' d.
Proof.
  intros Hne. induction counts as [| [k n0] rest IH]; simpl.
  - destruct (Method_eqb m m') eqn:Hm; [| reflexivity].
    apply Method_eqb_eq in Hm. contradiction.
  - destruct (Method_eqb k m) eqn:Hk; simpl.
    + apply Method_eqb_eq in Hk. subst k.
      destruct (Method_eqb m m') eqn:Hm; [| reflexivity].
      apply Method_eqb_eq in Hm. contradiction.
    + now rewrite IH.
Qed.

Lemma setitem_keys (counts : list (Method * nat)) (m : Method) (n : nat)
    (k : Method) :
  In k (map fst (setitem counts m n)) <-> k = m \/ In k (map fst counts).
Proof.
  induction counts as [| [k0 n0] rest IH]; simpl.
  - intuition.
  - destruct (Method_eqb k0 m) eqn:Hk; simpl.
    + apply Method_eqb_eq in Hk. subst k0. intuition.
    + rewrite IH. intuition.
Qed.

Lemma setitem_NoDup (counts : list (Method * nat)) (m : Method) (n : nat) :
  NoDup (map fst counts) -> NoDup (map fst (setitem counts m n)).
Proof.
  induction counts as [| [k0 n0] rest IH]; simpl; intros Hnd.
  - repeat constructor. intros [].
  - inversion Hnd as [| ? ? Hnotin Hrest]; subst.
    destruct (Method_eqb k0 m) eqn:Hk; simpl.
    + now constructor.
    + constructor; [| now apply IH].
      rewrite setitem_keys. intros [-> | Hin]; [| contradiction].
      rewrite (proj2 (Method_eqb_eq m m) eq_refl) in Hk. discriminate.
Qed.

Lemma setitem_sum (counts : list (Method * nat)) (m : Method) (n : nat) :
  (list_sum (map snd (setitem counts m n)) + get counts m 0
   = list_sum (map snd counts) + n)%nat.
Proof.
  induction counts as [| [k0 n0] rest IH]; simpl; [lia |].
  destruct (Method_eqb k0 m); simpl; lia.
Qed.

Lemma setitem_In (counts : list (Method * nat)) (m : Method) (n : nat)
    (k : Method) (c : nat) :
  In (k, c) (setitem counts m n) -> (k = m /\ c = n) \/ In (k, c) counts.
Proof.
  induction counts as [| [k0 n0] rest IH]; simpl.
  - intros [[= <- <-] | []]. now left.
  - destruct (Method_eqb k0 m) eqn:Hk; simpl.
    + apply Method_eqb_eq in Hk. subst k0.
      intros [[= <- <-] | Hin]; [now left | now right; right].
    + intros [Heq | Hin]; [now right; left |].
      destruct (IH Hin) as [Hl | Hr]; [now left | now right; right].
Qed.

(** The counting loop, from any dictionary of counts. *)
Lemma method_counts_from (l : list Vector) (counts : list (Method * nat)) :
  let result :=
    fold_left (fun counts vector =>
                 setitem counts (method vector)
                         (get counts (method vector) 0 + 1)%nat)
              l counts in
  (forall m, get result m 0 = (get counts m 0 + count_method m l)%nat)
  /\ (list_sum (map snd result)
      = list_sum (map snd counts) + List.length l)%nat
  /\ (NoDup (map fst counts) -> NoDup (map fst result))
  /\ ((forall k c, In (k, c) counts -> (0 < c)%nat) ->
      forall k c, In (k, c) result -> (0 < c)%nat).
Proof.
  revert counts. induction l as [| v rest IH]; intros counts; simpl.
  - repeat split; auto; unfold count_method; simpl; lia.
  - specialize (IH (setitem counts (method v)
                            (get counts (method v) 0 + 1)%nat)).
    simpl in IH. destruct IH as (Hget & Hsum & Hnd & Hpos).
    repeat split.
    + intros m. rewrite Hget. unfold count_method. simpl.
      destruct (Method_eqb (method v) m) eqn:Hm.
      * apply Method_eqb_eq in Hm. subst m.
        rewrite get_setitem_same. simpl. lia.
      * rewrite get_setitem_other; [lia |].
        intros Heq. rewrite Heq in Hm.
        rewrite (proj2 (Method_eqb_eq m m) eq_refl) in Hm. discriminate.
    + rewrite Hsum.
      pose proof (setitem_sum counts (method v)
                    (get counts (method v) 0 + 1)%nat). lia.
    + intros H. apply Hnd. now apply setitem_NoDup.
    + intros H. apply Hpos. intros k c Hin.
      apply setitem_In in Hin. destruct Hin as [[_ ->] | Hin]; [lia |].
      eapply H; eauto.
Qed.

(** X5: in [method_distribution] each method occurs at most once as a key,
    its count is the number of returned vectors of that method (0 for a
    missing key), no key has the count 0, and the counts add up to the
    number of vectors. *)
Theorem method_counts_spec (final_vectors : list Vector) :
  (forall m, get (method_counts final_vectors) m 0
             = count_method m final_vectors)
  /\ list_sum (map snd (method_counts final_vectors))
     = List.length final_vectors
  /\ NoDup (map fst (method_counts final_vectors))
  /\ (forall k c, In (k, c) (method_counts final_vectors) -> (0 < c)%nat).
Proof.
  destruct (method_counts_from final_vectors []) as (Hget & Hsum & Hnd & Hpos).
  unfold method_counts. repeat split.
  - intros m. now rewrite Hget.
  - now rewrite Hsum.
  - apply Hnd. constructor.
  - apply Hpos. intros k c [].
Qed.

Lemma fold_left_Rmin_spec (l : list R) (x : R) :
  In (fold_left Rmin l x) (x :: l)
  /\ forall y, In y (x :: l) -> fold_left Rmin l x <= y.
Proof.
  revert x. induction l as [| z rest IH]; intros x; simpl.
  - split; [now left |]. intros y [<- | []]. lra.
  - destruct (IH (Rmin x z)) as [Hin Hle]. split.
    + destruct Hin as [Heq | Hin]; [| now right; right].
      rewrite <- Heq. unfold Rmin. destruct (Rle_dec x z); auto.
    + intros y Hy.
      assert (Hm : fold_left Rmin rest (Rmin x z) <= Rmin x z)
        by (apply Hle; now left).
      destruct Hy as [<- | [<- | Hy]].
      * pose proof (Rmin_l x z). lra.
      * pose proof (Rmin_r x z). lra.
      * apply Hle. now right.
Qed.

Lemma fold_left_Rmax_spec (l : list R) (x : R) :
  In (fold_left Rmax l x) (x :: l)
  /\ forall y, In y (x :: l) -> y <= fold_left Rmax l x.
Proof.
  revert x. induction l as [| z rest IH]; intros x; simpl.
  - split; [now left |]. intros y [<- | []]. lra.
  - destruct (IH (Rmax x z)) as [Hin Hle]. split.
    + destruct Hin as [Heq | Hin]; [| now right; right].
      rewrite <- Heq. unfold Rmax. destruct (Rle_dec x z); auto.
    + intros y Hy.
      assert (Hm : Rmax x z <= fold_left Rmax rest (Rmax x z))
        by (apply Hle; now left).
      destruct Hy as [<- | [<- | Hy]].
      * pose proof (Rmax_l x z). lra.
      * pose proof (Rmax_r x z). lra.
      * apply Hle. now right.
Qed.

(** X6: the [min] and [max] of the statistics of a list ([length_stats],
    [quality_stats]): every entry lies between them; on a non-empty list
    both are entries of the list; on the empty list [min], [max] and [avg]
    are 0, without a division. *)
Theorem stats_min_max_spec (l : list R) :
  (forall y, In y l -> stats_min (stats_of l) <= y <= stats_max (stats_of l))
  /\ (l <> [] ->
      In (stats_min (stats_of l)) l /\ In (stats_max (stats_of l)) l)
  /\ (l = [] ->
      stats_of l = {| stats_min := 0; stats_max := 0; stats_avg := 0 |}).
Proof.
  destruct l as [| x rest].
  - simpl. repeat split; try contradiction; congruence.
  - destruct (fold_left_Rmin_spec rest x) as [Hmin_in Hmin].
    destruct (fold_left_Rmax_spec rest x) as [Hmax_in Hmax].
    cbn [stats_of stats_min stats_max].
    split; [| split].
    + intros y Hy. split; auto.
    + intros _. split; assumption.
    + discriminate.
Qed.

(** * The extractors in detail *)

Lemma range_In (start stop stride z : Z) :
  (0 < stride)%Z ->
  In z (range start stop stride)
  <-> (start <= z < stop)%Z /\ ((z - start) mod stride = 0)%Z.
Proof.
  intros Hs. unfold range. rewrite in_map_iff. split.
  - intros (k & <- & Hk). apply in_seq in Hk.
    assert (Hq : (Z.of_nat k < (stop - start + stride - 1) / stride)%Z)
      by lia.
    pose proof (Z.mul_div_le (stop - start + stride - 1) stride Hs).
    split; [nia |].
    replace (start + Z.of_nat k * stride - start)%Z
      with (Z.of_nat k * stride)%Z by ring.
    apply Z.mod_mul. lia.
  - intros [[Hlo Hhi] Hmod].
    apply Z.mod_divide in Hmod; [| lia]. destruct Hmod as [q Hq].
    assert (Hq0 : (0 <= q)%Z) by nia.
    exists (Z.to_nat q). split; [rewrite Z2Nat.id by lia; lia |].
    apply in_seq. split; [lia |]. simpl.
    assert (Hlt : (q + 1 <= (stop - start + stride - 1) / stride)%Z)
      by (apply Z.div_le_lower_bound; [lia | nia]).
    lia.
Qed.

Section ExtractorDetails.

Context {Image : Type}.
Variable cv2 : Cv2 Image.
Variable self : MotionVectorExtractor.

Lemma ffmpeg_contour_detected (range_idx : nat) (c : Contour)
    (vs : list Vector) :
  In range_idx green_ranges ->
  ffmpeg_contour self range_idx c = Ok vs ->
  Forall (detected (params self)) vs.
Proof.
  intros Hidx. unfold ffmpeg_contour.
  destruct (Rle_dec 2 (contourArea c)); [| intros [= <-]; constructor].
  destruct (Rle_dec (contourArea c) 50); [| intros [= <-]; constructor].
  destruct (Rgt_dec (m00 c) 0); [| intros [= <-]; constructor].
  destruct (5 <=? len c)%nat eqn:Hlen; [| intros [= <-]; constructor].
  destruct (fitEllipse c) as [[[width height] ang] | e] eqn:Hfit; simpl;
    [| discriminate].
  destruct (apply_length_constraints _ _ _) as [[dx dy] l] eqn:Hc.
  destruct (Rge_dec l _) as [Hmin | _]; intros [= <-]; constructor;
    [| constructor].
  apply Nat.leb_le in Hlen.
  eapply detected_ffmpeg; eauto.
Qed.

Lemma extract_ffmpeg_vectors_detected (frame : Image) (vs : list Vector) :
  extract_ffmpeg_vectors cv2 self frame = Ok vs ->
  Forall (detected (params self)) vs.
Proof.
  unfold extract_ffmpeg_vectors.
  destruct (cvtColor_HSV cv2 frame); cbn [bind]; [| discriminate].
  apply for_extend_Forall. intros idx bs Hidx.
  destruct (findContours cv2 frame idx) as [cs | e]; cbn [bind];
    [| discriminate].
  apply for_extend_Forall. intros c vs' _.
  now apply ffmpeg_contour_detected.
Qed.

Lemma flow_sample_detected (fl : Flow) (y x : Z) :
  In y (range step (fst (flow_shape fl) - step) step) ->
  In x (range step (snd (flow_shape fl) - step) step) ->
  Forall (detected (params self)) (flow_sample self fl y x).
Proof.
  intros Hy Hx. unfold flow_sample.
  destruct (flow_at fl y x) as [fx fy] eqn:Hat.
  destruct (Rgt_dec _ _) as [Hmag | _]; [| constructor].
  destruct (apply_length_constraints _ _ _) as [[dx dy] l] eqn:Hc.
  destruct (Rge_dec l _) as [Hmin | _]; constructor; [| constructor].
  eapply detected_flow; eauto.
Qed.

Lemma extract_optical_flow_vectors_detected (frame : Image)
    (vs : list Vector) :
  extract_optical_flow_vectors cv2 self frame = Ok vs ->
  Forall (detected (params self)) vs.
Proof.
  unfold extract_optical_flow_vectors.
  destruct (cvtColor_GRAY cv2 frame); simpl; [| discriminate].
  destruct (calcOpticalFlowFarneback cv2 frame) as [fl | e].
  - destruct (flow_shape fl) as [h w] eqn:Hshape. intros [= <-].
    apply Forall_flat_map. intros y Hy.
    apply Forall_flat_map. intros x Hx.
    apply flow_sample_detected; now rewrite Hshape.
  - intros [= <-]. constructor.
Qed.

Lemma edge_line_detected (line : Z * Z * Z * Z) :
  Forall (detected (params self)) (edge_line self line).
Proof.
  unfold edge_line.
  destruct line as [[[x1 y1] x2] y2].
  destruct (apply_length_constraints _ _ _) as [[dx dy] l] eqn:Hc.
  destruct (Rge_dec l _) as [Hmin | _]; constructor; [| constructor].
  eapply detected_edge; eauto.
Qed.

Lemma extract_edge_vectors_detected (frame : Image) (vs : list Vector) :
  extract_edge_vectors cv2 self frame = Ok vs ->
  Forall (detected (params self)) vs.
Proof.
  unfold extract_edge_vectors.
  destruct (cvtColor_GRAY cv2 frame); simpl; [| discriminate].
  destruct (HoughLinesP cv2 frame) as [[lines |] | e]; simpl;
    try discriminate; intros [= <-].
  - apply Forall_flat_map. intros line _. apply edge_line_detected.
  - constructor.
Qed.

Lemma all_methods_detected (frame : Image) (vs : list Vector) :
  all_methods cv2 self frame = Ok vs ->
  Forall (detected (params self)) vs.
Proof.
  unfold all_methods.
  destruct (extract_ffmpeg_vectors cv2 self frame) as [a | e] eqn:Ha;
    simpl; [| discriminate].
  destruct (extract_optical_flow_vectors cv2 self frame) as [b | e] eqn:Hb;
    simpl; [| discriminate].
  destruct (extract_edge_vectors cv2 self frame) as [c | e] eqn:Hc;
    simpl; [| discriminate].
  intros [= <-]. repeat (apply Forall_app; split).
  - now apply (extract_ffmpeg_vectors_detected frame).
  - now apply (extract_optical_flow_vectors_detected frame).
  - now apply (extract_edge_vectors_detected frame).
Qed.

End ExtractorDetails.

(** Quality and confidence of a detection, whatever the parameters. *)
Lemma detected_quality_confidence (p : Params) (v : Vector) :
  detected p v ->
  0 <= quality v <= 1 /\ 0.6 <= confidence v <= 0.9.
Proof.
  intros [idx c width height ang dx dy l Hidx [Ha1 Ha2] _ _ _ _ _
         | fl y x fx fy dx dy l _ _ _ Hmag _ _
         | x1 y1 x2 y2 dx dy l _ _]; simpl.
  - split.
    + split; [| apply Rmin_r]. apply Rmin_glb; lra.
    + destruct Hidx as [<- | [<- | [<- | []]]]; simpl; lra.
  - split; [| lra]. split; [| apply Rmin_r]. apply Rmin_glb; lra.
  - split; [| lra]. split; [| apply Rmin_r].
    apply Rmin_glb; [| lra].
    pose proof (sqrt_pos (IZR ((x2 - x1) * (x2 - x1)
                               + (y2 - y1) * (y2 - y1)))). lra.
Qed.

Lemma scale_vectors_back_fields (scale_back : R) (l : list Vector)
    (v : Vector) :
  In v (scale_vectors_back scale_back l) ->
  exists u,
    In u l /\ quality v = quality u /\ confidence v = confidence u
    /\ method v = method u /\ evidence v = evidence u.
Proof.
  unfold scale_vectors_back. destruct (Req_dec_T scale_back 1).
  - intros Hv. exists v. auto.
  - intros Hv. apply in_map_iff in Hv. destruct Hv as (u & <- & Hu).
    exists u. destruct u as [[cx cy] [dx dy] m a q k t e]. simpl. auto.
Qed.

(** X7: for every returned vector the quality lies in [0, 1] and the
    confidence in [0.6, 0.9], whatever the parameters; so the score
    [quality * confidence] lies in [0, 0.9]. *)
Theorem returned_quality_confidence_ranges
    (Image : Type) (cv2 : Cv2 Image) (self : MotionVectorExtractor)
    (path : string) (r : FrameResult) (v : Vector) :
  extract_motion_vectors_from_frame cv2 self path = Ok r ->
  In v (vectors r) ->
  0 <= quality v <= 1
  /\ 0.6 <= confidence v <= 0.9
  /\ 0 <= quality v * confidence v <= 0.9.
Proof.
  intros H Hv.
  destruct (extract_motion_vectors_from_frame_inv cv2 self path r H)
    as [[_ ->] | (frame & fr & sb & all & _ & _ & Hall & ->)];
    [contradiction |].
  simpl in Hv. apply fuse_In in Hv.
  apply scale_vectors_back_fields in Hv.
  destruct Hv as (u & Hu & -> & -> & _).
  apply (all_methods_detected cv2 self) in Hall.
  rewrite Forall_forall in Hall.
  destruct (detected_quality_confidence _ _ (Hall u Hu)) as [Hq Hc].
  repeat split; try lra; nra.
Qed.

Lemma returned_quality_confidence_ranges_witness :
  0 <= quality seg_a <= 1
  /\ 0.6 <= confidence seg_a <= 0.9
  /\ 0 <= quality seg_a * confidence seg_a <= 0.9.
Proof.
  apply (returned_quality_confidence_ranges Frame (cv2_of folder)
           (init false) "frame_0001.png"
           (success_result "frame_0001.png" 40 40 [seg_a; seg_b])).
  - apply extract_two_segments.
  - now left.
Defined.

(** X8: with a confidence threshold of at most 0.6, as the 0.4 of
    [__init__], the confidence test of the filter rejects nothing: the
    filter keeps exactly the detections whose quality reaches
    [quality_threshold]. *)
Theorem filter_by_quality_only
    (Image : Type) (cv2 : Cv2 Image) (self : MotionVectorExtractor)
    (frame_resized : Image) (scale_back : R) (all_vectors : list Vector) :
  confidence_threshold (params self) <= 0.6 ->
  all_methods cv2 self frame_resized = Ok all_vectors ->
  filter_vectors self (scale_vectors_back scale_back all_vectors)
  = filter (fun v => if Rge_dec (quality v)
                                (quality_threshold (params self))
                     then true else false)
           (scale_vectors_back scale_back all_vectors).
Proof.
  intros Hct Hall. unfold filter_vectors.
  apply filter_ext_in. intros v Hv.
  apply scale_vectors_back_fields in Hv.
  destruct Hv as (u & Hu & Hq & Hc & _).
  apply (all_methods_detected cv2 self) in Hall.
  rewrite Forall_forall in Hall.
  destruct (detected_quality_confidence _ _ (Hall u Hu)) as [_ Hconf].
  unfold passes_thresholds.
  destruct (Rge_dec (quality v) _); [| reflexivity].
  destruct (Rge_dec (confidence v) _); [reflexivity | lra].
Qed.

Lemma filter_by_quality_only_witness :
  filter_vectors (init false) (scale_vectors_back 1 [seg_a; seg_b])
  = filter (fun v => if Rge_dec (quality v)
                                (quality_threshold (params (init false)))
                     then true else false)
           (scale_vectors_back 1 [seg_a; seg_b]).
Proof.
  apply (filter_by_quality_only Frame (cv2_of folder) (init false)
           two_segments).
  - simpl. lra.
  - apply all_methods_two_segments.
Defined.



(** X10: the optical-flow extractor samples the flow on a grid of step
    25 that keeps a margin of 25 pixels: the center [(x, y)] of each of its
    vectors has coordinates that are multiples of 25 with
    [25 <= x < w - 25] and [25 <= y < h - 25], where [(h, w)] is the shape
    of the flow; the raw flow magnitude kept as evidence is above 0.8. *)
Theorem flow_vectors_on_grid
    (Image : Type) (cv2 : Cv2 Image) (self : MotionVectorExtractor)
    (frame : Image) (fl : Flow) (vs : list Vector) (v : Vector) :
  calcOpticalFlowFarneback cv2 frame = Ok fl ->
  extract_optical_flow_vectors cv2 self frame = Ok vs ->
  In v vs ->
  (25 <= fst (center v) < snd (flow_shape fl) - 25)%Z
  /\ (fst (center v) mod 25 = 0)%Z
  /\ (25 <= snd (center v) < fst (flow_shape fl) - 25)%Z
  /\ (snd (center v) mod 25 = 0)%Z
  /\ evidence v > 0.8.
Proof.
  intros Hflow. unfold extract_optical_flow_vectors. rewrite Hflow.
  destruct (cvtColor_GRAY cv2 frame); cbn [bind]; [| discriminate].
  destruct (flow_shape fl) as [h w]. intros [= <-] Hv.
  apply in_flat_map in Hv. destruct Hv as (y & Hy & Hv).
  apply in_flat_map in Hv. destruct Hv as (x & Hx & Hv).
  apply range_In in Hy; [| reflexivity].
  apply range_In in Hx; [| reflexivity].
  unfold step in *.
  assert (Hmod : forall z, ((z - 25) mod 25 = 0 -> z mod 25 = 0)%Z).
  { intros z Hz. replace z with ((z - 25) + 1 * 25)%Z by ring.
    now rewrite Z.mod_add. }
  unfold flow_sample in Hv.
  destruct (flow_at fl y x) as [fx fy].
  destruct (Rgt_dec (hypot fx fy) 0.8) as [Hmag | _]; [| contradiction].
  destruct (apply_length_constraints _ _ _) as [[dx dy] l].
  destruct (Rge_dec l _); [| contradiction].
  destruct Hv as [<- | []]. simpl.
  destruct Hx as [Hx Hxm], Hy as [Hy Hym].
  repeat split; try lia; try (now apply Hmod); lra.
Qed.

Lemma flow_sample_eval (self : MotionVectorExtractor) (fl : Flow)
    (y x : Z) (fx fy m dx dy l q : R) :
  flow_at fl y x = (fx, fy) ->
  0 <= m -> fx * fx + fy * fy = m * m -> m > 0.8 ->
  fx * flow_scale (params self) = dx ->
  fy * flow_scale (params self) = dy ->
  0 <= l -> dx * dx + dy * dy = l * l ->
  min_vector_length (params self) <= l <= max_vector_length (params self) ->
  Rmin (m / 4) 1 = q ->
  flow_sample self fl y x
  = [ {| center := (x, y); direction := (dx, dy); magnitude := l;
         angle := arctan2 fy fx; quality := q; confidence := 0.7;
         method := flow; evidence := m |} ].
Proof.
  intros Hat Hm Hm2 Hgt <- <- Hl Hl2 [Hmin Hmax] <-.
  unfold flow_sample. rewrite Hat. rewrite (hypot_eq fx fy m Hm Hm2).
  destruct (Rgt_dec m 0.8); [| lra].
  unfold apply_length_constraints. rewrite (hypot_eq _ _ l Hl Hl2).
  destruct (Rgt_dec l _); [lra |].
  destruct (Rge_dec l _); [reflexivity | lra].
Qed.

Lemma extract_optical_flow_vectors_moving (files : string -> option Frame) :
  extract_optical_flow_vectors (cv2_of files) (init false) moving
  = Ok [drift].
Proof.
  unfold extract_optical_flow_vectors.
  cbn [bind cvtColor_GRAY calcOpticalFlowFarneback cv2_of moving frame_flow
       uniform_motion flow_shape].
  change (range step (60 - step) step) with [25%Z].
  cbn [flat_map app].
  rewrite (flow_sample_eval (init false) _ 25 25 12 16 20 3 4 5 1);
    try reflexivity; try (simpl; lra).
  rewrite Rmin_right; lra.
Qed.

Lemma flow_vectors_on_grid_witness :
  (25 <= fst (center drift) < snd (flow_shape uniform_motion) - 25)%Z
  /\ (fst (center drift) mod 25 = 0)%Z
  /\ (25 <= snd (center drift) < fst (flow_shape uniform_motion) - 25)%Z
  /\ (snd (center drift) mod 25 = 0)%Z
  /\ evidence drift > 0.8.
Proof.
  apply (flow_vectors_on_grid Frame (cv2_of moving_folder) (init false)
           moving uniform_motion [drift]).
  - reflexivity.
  - apply extract_optical_flow_vectors_moving.
  - now left.
Defined.

(** X11: with the parameters of [__init__] (flow scale 0.25, minimum
    length 4) a flow sample is kept only if its raw magnitude is at least
    16, so every vector of the optical-flow extractor has quality 1 and
    confidence 0.7, that is the score 0.7. *)
Theorem flow_vectors_quality_one
    (Image : Type) (cv2 : Cv2 Image) (gpu : bool) (frame : Image)
    (vs : list Vector) (v : Vector) :
  extract_optical_flow_vectors cv2 (init gpu) frame = Ok vs ->
  In v vs ->
  method v = flow /\ evidence v >= 16
  /\ quality v = 1 /\ confidence v = 0.7.
Proof.
  unfold extract_optical_flow_vectors.
  destruct (cvtColor_GRAY cv2 frame); cbn [bind]; [| discriminate].
  destruct (calcOpticalFlowFarneback cv2 frame) as [fl | e];
    [| intros [= <-] []].
  destruct (flow_shape fl) as [h w]. intros [= <-] Hv.
  apply in_flat_map in Hv. destruct Hv as (y & _ & Hv).
  apply in_flat_map in Hv. destruct Hv as (x & _ & Hv).
  unfold flow_sample in Hv.
  destruct (flow_at fl y x) as [fx fy].
  destruct (Rgt_dec (hypot fx fy) 0.8) as [Hmag | _]; [| contradiction].
  destruct (apply_length_constraints _ _ _) as [[dx dy] l] eqn:Hc.
  destruct (Rge_dec l _) as [Hmin | _]; [| contradiction].
  destruct Hv as [<- | []]. simpl in *.
  assert (Hm : hypot fx fy >= 16).
  { unfold apply_length_constraints in Hc. simpl in Hc.
    rewrite hypot_scale in Hc by lra.
    destruct (Rgt_dec (hypot fx fy * 0.25) 18) as [Hgt | Hle];
      injection Hc as <- <- <-; lra. }
  repeat split; try assumption.
  apply Rmin_right. lra.
Qed.

Lemma flow_vectors_quality_one_witness :
  method drift = flow /\ evidence drift >= 16
  /\ quality drift = 1 /\ confidence drift = 0.7.
Proof.
  apply (flow_vectors_quality_one Frame (cv2_of moving_folder) false moving
           [drift]).
  - apply extract_optical_flow_vectors_moving.
  - now left.
Defined.

(** * Lengths of the returned vectors *)

Lemma resize_for_processing_factor {Image : Type} (cv2 : Cv2 Image)
    (frame frame_resized : Image) (scale_back : R) :
  resize_for_processing cv2 frame = Ok (frame_resized, scale_back) ->
  (scale_back = 1
   /\ length_factor (fst (shape cv2 frame)) (snd (shape cv2 frame)) = 1)
  \/ (scale_back <> 1
      /\ length_factor (fst (shape cv2 frame)) (snd (shape cv2 frame))
         = scale_back * 0.8).
Proof.
  unfold resize_for_processing, length_factor.
  destruct (shape cv2 frame) as [h w]. simpl.
  destruct (600 <? Z.max h w)%Z eqn:Hbig.
  - destruct (resize cv2 frame _) as [fr | e]; cbn [bind]; [| discriminate].
    intros [= _ <-]. right. split; [| reflexivity].
    apply Z.ltb_lt in Hbig. apply IZR_lt in Hbig. lra.
  - intros [= _ <-]. now left.
Qed.

Lemma returned_length_bounds_aux
    {Image : Type} (cv2 : Cv2 Image) (self : MotionVectorExtractor)
    (path : string) (frame : Image) (r : FrameResult) (v : Vector) :
  0 <= max_vector_length (params self) ->
  imread cv2 path = Some frame ->
  extract_motion_vectors_from_frame cv2 self path = Ok r ->
  In v (vectors r) ->
  magnitude v = hypot (fst (direction v)) (snd (direction v))
  /\ min_vector_length (params self)
     * length_factor (fst (shape cv2 frame)) (snd (shape cv2 frame))
     <= magnitude v
     <= max_vector_length (params self)
        * length_factor (fst (shape cv2 frame)) (snd (shape cv2 frame)).
Proof.
  intros Hmax Hread H Hv.
  destruct (extract_motion_vectors_from_frame_inv cv2 self path r H)
    as [[Hnone _] | (frame' & fr & sb & all & Hread' & Hres & Hall & ->)];
    [congruence |].
  rewrite Hread in Hread'. injection Hread' as <-.
  simpl in Hv. apply fuse_In in Hv.
  apply (all_methods_well_formed cv2 self fr) in Hall; [| exact Hmax].
  rewrite Forall_forall in Hall.
  unfold scale_vectors_back in Hv.
  destruct (resize_for_processing_factor cv2 frame fr sb Hres)
    as [[-> ->] | [Hne ->]].
  - destruct (Req_dec_T 1 1) as [_ | Hn]; [| now elim Hn].
    destruct (Hall v Hv) as [Hc [Hlo Hhi]]. rewrite Hc.
    split; [reflexivity | lra].
  - destruct (Req_dec_T sb 1) as [Heq | _]; [contradiction |].
    apply in_map_iff in Hv. destruct Hv as (u & <- & Hu).
    destruct (Hall u Hu) as [Hc [Hlo Hhi]].
    pose proof (resize_for_processing_scale cv2 frame fr sb Hres) as Hsb.
    unfold consistent in Hc.
    destruct u as [[cx cy] [dx dy] m a q k t e]. simpl in *.
    replace (dx * sb * 0.8) with (dx * (sb * 0.8)) by ring.
    replace (dy * sb * 0.8) with (dy * (sb * 0.8)) by ring.
    rewrite hypot_scale by lra. rewrite Hc.
    split; [reflexivity |]. split; apply Rmult_le_compat_r; lra.
Qed.


(** X12: the lengths of the returned vectors are those of the working
    size times [length_factor]: the norm of the direction of a
    returned vector, which is its [magnitude], lies between
    [min_vector_length] and [max_vector_length] both multiplied by 1 for a
    frame with sides up to 600, and by [max(h, w) / 600 * 0.8] for a
    larger frame. *)
Theorem returned_length_bounds
    (Image : Type) (cv2 : Cv2 Image) (self : MotionVectorExtractor)
    (path : string) (frame : Image) (r : FrameResult) (v : Vector) :
  0 <= max_vector_length (params self) ->
  imread cv2 path = Some frame ->
  extract_motion_vectors_from_frame cv2 self path = Ok r ->
  In v (vectors r) ->
  magnitude v = hypot (fst (direction v)) (snd (direction v))
  /\ min_vector_length (params self)
     * length_factor (fst (shape cv2 frame)) (snd (shape cv2 frame))
     <= magnitude v
     <= max_vector_length (params self)
        * length_factor (fst (shape cv2 frame)) (snd (shape cv2 frame)).
Proof.
  intros Hmax Hread H Hv.
  exact (returned_length_bounds_aux cv2 self path frame r v Hmax Hread H Hv).
Qed.

Lemma returned_length_bounds_witness :
  magnitude seg_a = hypot (fst (direction seg_a)) (snd (direction seg_a))
  /\ min_vector_length (params (init false)) * length_factor 40 40
     <= magnitude seg_a
     <= max_vector_length (params (init false)) * length_factor 40 40.
Proof.
  apply (returned_length_bounds Frame (cv2_of folder) (init false)
           "frame_0001.png" two_segments
           (success_result "frame_0001.png" 40 40 [seg_a; seg_b])).
  - simpl. lra.
  - reflexivity.
  - apply extract_two_segments.
  - now left.
Defined.

(** X13: for a loaded frame whose longer side is at most 750 pixels the
    length check of [process_all_frames] succeeds ([constraint_ok] is
    [True], "Shape preservation: GOOD"), also on an empty [vectors] list:
    up to 600 the frame is not resized, and up to 750 the factor
    [max(h, w) / 600 * 0.8] is at most 1. *)
Theorem constraint_ok_up_to_750
    (Image : Type) (cv2 : Cv2 Image) (self : MotionVectorExtractor)
    (path : string) (frame : Image) (r : FrameResult) :
  0 <= max_vector_length (params self) ->
  imread cv2 path = Some frame ->
  (Z.max (fst (shape cv2 frame)) (snd (shape cv2 frame)) <= 750)%Z ->
  extract_motion_vectors_from_frame cv2 self path = Ok r ->
  constraint_ok self r = Some true.
Proof.
  intros Hmax Hread Hsize H.
  assert (Hk : length_factor (fst (shape cv2 frame))
                             (snd (shape cv2 frame)) <= 1).
  { unfold length_factor. destruct (600 <? _)%Z; [| lra].
    apply IZR_le in Hsize. lra. }
  assert (Hb : forall v, In v (vectors r) ->
               magnitude v <= max_vector_length (params self)).
  { intros v Hv.
    destruct (returned_length_bounds_aux cv2 self path frame r v
                Hmax Hread H Hv) as [_ [_ Hhi]].
    nra. }
  destruct (extract_motion_vectors_from_frame_inv cv2 self path r H)
    as [[Hnone _] | (frame' & fr & sb & all & _ & _ & _ & ->)];
    [congruence |].
  unfold constraint_ok. simpl in *.
  destruct (fuse self sb all) as [| v rest] eqn:Hf; simpl.
  - destruct (Rle_dec 0 _); [reflexivity | contradiction].
  - destruct (fold_left_Rmax_spec (map magnitude rest) (magnitude v))
      as [Hin _].
    change (magnitude v :: map magnitude rest)
      with (map magnitude (v :: rest)) in Hin.
    apply in_map_iff in Hin. destruct Hin as (u & Hu & Hin).
    specialize (Hb u Hin). rewrite Hu in Hb.
    destruct (Rle_dec _ _); [reflexivity | contradiction].
Qed.

Lemma constraint_ok_up_to_750_witness :
  constraint_ok (init false)
    (success_result "frame_0001.png" 40 40 [seg_a; seg_b]) = Some true.
Proof.
  apply (constraint_ok_up_to_750 Frame (cv2_of folder) (init false)
           "frame_0001.png" two_segments).
  - simpl. lra.
  - reflexivity.
  - simpl. lia.
  - apply extract_two_segments.
Defined.

(** * The batch *)

Lemma for_extend_Raise_inv {A B : Type} (body : A -> result (list B))
    (l : list A) (e : string) :
  for_extend body l = Raise e ->
  exists before a after,
    l = before ++ a :: after
    /\ (exists out, for_extend body before = Ok out)
    /\ body a = Raise e.
Proof.
  induction l as [| x rest IH]; simpl; [discriminate |].
  destruct (body x) as [bs | e0] eqn:Hx; cbn [bind].
  - destruct (for_extend body rest) as [more | e1] eqn:Hrest; cbn [bind];
      [discriminate |].
    intros [= ->].
    destruct (IH eq_refl) as (before & a & after & -> & [out Hout] & Ha).
    exists (x :: before), a, after. split; [reflexivity |].
    split; [| exact Ha]. simpl. rewrite Hx, Hout. cbn [bind].
    now eexists.
  - intros [= ->]. exists [], x, rest. split; [reflexivity |].
    split; [now exists [] | exact Hx].
Qed.

Lemma for_extend_Raise_at {A B : Type} (body : A -> result (list B))
    (before after : list A) (a : A) (out : list B) (e : string) :
  for_extend body before = Ok out ->
  body a = Raise e ->
  for_extend body (before ++ a :: after) = Raise e.
Proof.
  revert out. induction before as [| y before IH]; simpl; intros out.
  - intros _ Ha. now rewrite Ha.
  - destruct (body y) as [bs | e0]; cbn [bind]; [| discriminate].
    destruct (for_extend body before) as [o | e1]; cbn [bind];
      [| discriminate].
    intros _ Ha. now rewrite (IH o eq_refl Ha).
Qed.

Lemma for_extend_Raise {A B : Type} (body : A -> result (list B))
    (l : list A) (e : string) :
  for_extend body l = Raise e
  <-> exists before a after,
        l = before ++ a :: after
        /\ (exists out, for_extend body before = Ok out)
        /\ body a = Raise e.
Proof.
  split; [apply for_extend_Raise_inv |].
  intros (before & a & after & -> & [out Hout] & Ha).
  now apply (for_extend_Raise_at body before after a out).
Qed.

(** X14: the batch has no handler of its own: [process_all_frames] raises
    exactly when the per-frame function raises for some path, and then
    with the exception of the first such path; the frames after it are
    not processed and the results of the frames before it are lost. *)
Theorem batch_stops_at_first_exception
    (Image : Type) (cv2 : Cv2 Image) (self : MotionVectorExtractor)
    (frame_paths : list string) (e : string) :
  process_all_frames cv2 self frame_paths = Raise e
  <-> exists before path after,
        frame_paths = before ++ path :: after
        /\ (exists results, process_all_frames cv2 self before = Ok results)
        /\ extract_motion_vectors_from_frame cv2 self path = Raise e.
Proof.
  rewrite process_all_frames_loop, for_extend_Raise.
  split; intros (before & path & after & Heq & [out Hout] & Hp);
    exists before, path, after; (split; [exact Heq |]); split.
  - exists out. now rewrite process_all_frames_loop.
  - destruct (extract_motion_vectors_from_frame cv2 self path);
      cbn [bind] in Hp; [discriminate | congruence].
  - exists out. now rewrite process_all_frames_loop in Hout.
  - now rewrite Hp.
Qed.

(** X15: an exception of [cv2.calcOpticalFlowFarneback] does not leave the
    optical-flow extractor: when the other OpenCV calls return, the
    per-frame function returns a result without [error], made of the
    FFmpeg and the edge detections only. *)
Theorem flow_failure_is_contained
    (Image : Type) (cv2 : Cv2 Image) (self : MotionVectorExtractor)
    (path : string) (frame frame_resized : Image) (scale_back : R)
    (ffmpeg_vectors edge_vectors : list Vector) (e : string) :
  imread cv2 path = Some frame ->
  resize_for_processing cv2 frame = Ok (frame_resized, scale_back) ->
  extract_ffmpeg_vectors cv2 self frame_resized = Ok ffmpeg_vectors ->
  calcOpticalFlowFarneback cv2 frame_resized = Raise e ->
  extract_edge_vectors cv2 self frame_resized = Ok edge_vectors ->
  extract_optical_flow_vectors cv2 self frame_resized = Ok []
  /\ exists r,
      extract_motion_vectors_from_frame cv2 self path = Ok r
      /\ error r = None
      /\ vectors r = fuse self scale_back (ffmpeg_vectors ++ edge_vectors).
Proof.
  intros Hread Hres Hf Hflow He.
  assert (Hfl : extract_optical_flow_vectors cv2 self frame_resized = Ok []).
  { unfold extract_optical_flow_vectors.
    unfold extract_edge_vectors in He.
    destruct (cvtColor_GRAY cv2 frame_resized); cbn [bind] in *;
      [| discriminate].
    now rewrite Hflow. }
  split; [exact Hfl |].
  exists (success_result path (snd (shape cv2 frame)) (fst (shape cv2 frame))
            (fuse self scale_back (ffmpeg_vectors ++ edge_vectors))).
  split; [| split; reflexivity].
  unfold extract_motion_vectors_from_frame. rewrite Hread.
  destruct (shape cv2 frame) as [h w]. rewrite Hres. cbn [bind].
  unfold all_methods. rewrite Hf, Hfl, He. reflexivity.
Qed.

Lemma flow_failure_is_contained_witness :
  extract_optical_flow_vectors (cv2_of flow_raises_folder) (init false)
    flow_raises = Ok []
  /\ exists r,
      extract_motion_vectors_from_frame (cv2_of flow_raises_folder)
        (init false) "frame_0001.png" = Ok r
      /\ error r = None
      /\ vectors r
         = fuse (init false) 1
             ([] ++ flat_map (edge_line (init false))
                             [(0, 0, 6, 8); (15, 0, 21, 8)]%Z).
Proof.
  apply (flow_failure_is_contained Frame (cv2_of flow_raises_folder)
           (init false) "frame_0001.png" flow_raises flow_raises 1 []
           (flat_map (edge_line (init false))
                     [(0, 0, 6, 8); (15, 0, 21, 8)]%Z)
           "cv2.error: calcOpticalFlowFarneback").
  - reflexivity.
  - reflexivity.
  - reflexivity.
  - reflexivity.
  - reflexivity.
Defined.

(** * The frames of the directory *)

Lemma prefix_spec (s1 s2 : string) :
  String.prefix s1 s2 = true <-> exists post, s2 = (s1 ++ post)%string.
Proof.
  revert s2. induction s1 as [| a s1 IH]; intros s2.
  - split; [| now destruct s2].
    intros _. exists s2. reflexivity.
  - destruct s2 as [| b s2]; simpl.
    + split; [discriminate | intros [post Hp]; discriminate].
    + destruct (Ascii.ascii_dec a b) as [-> | Hne].
      * rewrite IH. split; intros [post Hp]; exists post; congruence.
      * split; [discriminate |]. intros [post Hp]. congruence.
Qed.

Lemma contains_spec (needle hay : string) :
  contains needle hay = true
  <-> exists pre post, hay = (pre ++ needle ++ post)%string.
Proof.
  induction hay as [| c hay IH]; cbn [contains]; rewrite orb_true_iff.
  - rewrite prefix_spec. split.
    + intros [[post Hp] | Hf]; [| discriminate].
      exists EmptyString, post. exact Hp.
    + intros (pre & post & Hp). left.
      destruct pre; [now exists post |]. discriminate.
  - rewrite prefix_spec, IH. split.
    + intros [[post Hp] | (pre & post & Hp)].
      * exists EmptyString, post. exact Hp.
      * exists (String c pre), post. simpl. now rewrite Hp.
    + intros (pre & post & Hp). destruct pre as [| c' pre].
      * left. now exists post.
      * right. simpl in Hp. injection Hp as _ Hp. now exists pre, post.
Qed.

Lemma insert_path_perm (x : string) (l : list string) :
  Permutation (insert_path x l) (x :: l).
Proof.
  induction l as [| y rest IH]; simpl; [reflexivity |].
  destruct (String.ltb y x); [| reflexivity].
  rewrite IH. apply perm_swap.
Qed.

Lemma sorted_perm (l : list string) : Permutation (sorted l) l.
Proof.
  induction l as [| x rest IH]; simpl; [reflexivity |].
  rewrite insert_path_perm. now constructor.
Qed.

Lemma insert_path_Sorted (x : string) (l : list string) :
  Sorted (fun a b => String.leb a b = true) l ->
  Sorted (fun a b => String.leb a b = true) (insert_path x l).
Proof.
  induction 1 as [| y rest Hrest IH Hy]; simpl.
  - repeat constructor.
  - destruct (String.ltb y x) eqn:Hlt.
    + constructor; [exact IH |].
      assert (Hyx : String.leb y x = true).
      { unfold String.ltb in Hlt. unfold String.leb.
        now destruct (String.compare y x). }
      destruct rest as [| z rest]; simpl.
      * now constructor.
      * destruct (String.ltb z x); constructor; [| exact Hyx].
        now inversion Hy.
    + constructor; [now constructor |]. constructor.
      unfold String.ltb in Hlt. unfold String.leb.
      rewrite String.compare_antisym.
      now destruct (String.compare y x).
Qed.

Lemma sorted_Sorted (l : list string) :
  Sorted (fun a b => String.leb a b = true) (sorted l).
Proof.
  induction l as [| x rest IH]; simpl; [constructor |].
  now apply insert_path_Sorted.
Qed.

(** X16: [find_motion_vector_frames] returns the paths of the glob that
    do not contain the text "detection_analysis", each as often as the
    glob gave it, in ascending order. *)
Theorem find_motion_vector_frames_spec (all_frames : list string) :
  Sorted (fun a b => String.leb a b = true)
         (find_motion_vector_frames all_frames)
  /\ (forall frame_path,
        In frame_path (find_motion_vector_frames all_frames)
        <-> In frame_path all_frames
            /\ ~ exists pre post,
                  frame_path
                  = (pre ++ "detection_analysis" ++ post)%string)
  /\ Permutation
       (find_motion_vector_frames all_frames)
       (filter (fun frame_path =>
                  negb (contains "detection_analysis" frame_path))
               all_frames).
Proof.
  unfold find_motion_vector_frames. split; [apply sorted_Sorted |].
  split; [| apply sorted_perm].
  intros frame_path. split.
  - intros Hin. apply (Permutation_in _ (sorted_perm _)) in Hin.
    apply filter_In in Hin. destruct Hin as [Hin Hc].
    split; [exact Hin |]. intros Hex. apply contains_spec in Hex.
    rewrite Hex in Hc. discriminate.
  - intros [Hin Hn].
    apply (Permutation_in _ (Permutation_sym (sorted_perm _))).
    apply filter_In. split; [exact Hin |].
    destruct (contains "detection_analysis" frame_path) eqn:Hc;
      [| reflexivity].
    exfalso. apply Hn. now apply contains_spec.
Qed.

(** * The corpus statistics *)

Lemma extract_total_vectors {Image : Type} (cv2 : Cv2 Image)
    (self : MotionVectorExtractor) (path : string) (r : FrameResult) :
  extract_motion_vectors_from_frame cv2 self path = Ok r ->
  no_error r = true ->
  total_vectors r = Some (List.length (vectors r)).
Proof.
  intros H Hn.
  destruct (extract_motion_vectors_from_frame_inv cv2 self path r H)
    as [[_ ->] | (frame & fr & sb & all & _ & _ & _ & ->)];
    [discriminate | reflexivity].
Qed.

Lemma all_lengths_length (valid : list FrameResult) :
  List.length (all_lengths valid) = List.length (flat_map vectors valid).
Proof.
  unfold all_lengths. induction valid as [| r rs IH]; [reflexivity |].
  simpl. rewrite !length_app, length_map. now rewrite IH.
Qed.

(** X17: in the corpus statistics of [process_all_frames] the "Total
    vectors extracted" (the sum of the [total_vectors] keys of the results
    without error, read without a [KeyError]) is the number of lengths in
    [all_lengths] and the sum of the counts in [all_methods]; the number
    "Within constraints" is at most that, and there are at most as many
    valid results as frames. *)
Theorem corpus_totals_agree
    (Image : Type) (cv2 : Cv2 Image) (self : MotionVectorExtractor)
    (frame_paths : list string) (results : list FrameResult) :
  process_all_frames cv2 self frame_paths = Ok results ->
  sum_total_vectors (valid_results results)
  = Ok (List.length (all_lengths (valid_results results)))
  /\ list_sum (map snd (all_method_counts (valid_results results)))
     = List.length (all_lengths (valid_results results))
  /\ (within_constraints self (valid_results results)
      <= List.length (all_lengths (valid_results results)))%nat
  /\ (List.length (valid_results results) <= List.length frame_paths)%nat.
Proof.
  intros H. apply process_all_frames_Forall2 in H.
  split; [| split; [| split]].
  - induction H as [| path r paths rs Hr _ IH]; [reflexivity |].
    unfold valid_results in *. simpl.
    destruct (no_error r) eqn:Hn; [| exact IH].
    simpl. rewrite (extract_total_vectors cv2 self path r Hr Hn).
    rewrite IH. cbn [bind]. unfold all_lengths. simpl.
    now rewrite length_app, length_map.
  - unfold all_method_counts.
    destruct (method_counts_from (flat_map vectors (valid_results results))
                []) as (_ & Hsum & _).
    unfold method_counts. rewrite Hsum. simpl.
    now rewrite all_lengths_length.
  - unfold within_constraints. apply filter_length_le.
  - unfold valid_results.
    rewrite (Forall2_length H). apply filter_length_le.
Qed.

Lemma corpus_totals_agree_witness :
  sum_total_vectors
    (valid_results [success_result "frame_0001.png" 40 40 [seg_a; seg_b]])
  = Ok (List.length
          (all_lengths
             (valid_results
                [success_result "frame_0001.png" 40 40 [seg_a; seg_b]]))).
Proof.
  apply (corpus_totals_agree Frame (cv2_of folder) (init false)
           ["frame_0001.png"%string]).
  apply process_folder.
Defined.

(** * The visualizations *)

Lemma detected_method_confidence (p : Params) (v : Vector) :
  detected p v ->
  (method v = ffmpeg
   /\ (confidence v = 0.9 \/ confidence v = 0.8 \/ confidence v = 0.7))
  \/ (method v = flow /\ confidence v = 0.7)
  \/ (method v = edge /\ confidence v = 0.6).
Proof.
  intros [idx c width height ang dx dy l Hidx _ _ _ _ _ _
         | fl y x fx fy dx dy l _ _ _ _ _ _
         | x1 y1 x2 y2 dx dy l _ _]; simpl.
  - left. split; [reflexivity |].
    destruct Hidx as [<- | [<- | [<- | []]]]; simpl.
    + left. lra.
    + right. left. lra.
    + right. right. lra.
  - right. left. now split.
  - right. right. now split.
Qed.

Lemma returned_vector_detected {Image : Type} (cv2 : Cv2 Image)
    (self : MotionVectorExtractor) (path : string) (r : FrameResult)
    (v : Vector) :
  extract_motion_vectors_from_frame cv2 self path = Ok r ->
  In v (vectors r) ->
  exists u,
    detected (params self) u
    /\ quality v = quality u /\ confidence v = confidence u
    /\ method v = method u /\ evidence v = evidence u.
Proof.
  intros H Hv.
  destruct (extract_motion_vectors_from_frame_inv cv2 self path r H)
    as [[_ ->] | (frame & fr & sb & all & _ & _ & Hall & ->)];
    [contradiction |].
  simpl in Hv. apply fuse_In in Hv.
  apply scale_vectors_back_fields in Hv.
  destruct Hv as (u & Hu & Hfields).
  apply (all_methods_detected cv2 self) in Hall.
  rewrite Forall_forall in Hall. exists u. split; auto.
Qed.

Lemma create_vector_visualization_of_result {Image : Type}
    (cv2 : Cv2 Image) (output_path : string -> string)
    (self : MotionVectorExtractor) (path : string) (r : FrameResult) :
  extract_motion_vectors_from_frame cv2 self path = Ok r ->
  (vectors r = [] ->
   create_vector_visualization cv2 output_path r = Ok None)
  /\ (vectors r <> [] ->
      create_vector_visualization cv2 output_path r
      = Ok (Some
          {| arrows := map arrow_of (vectors r);
             quality_circles := map center (filter high_quality (vectors r));
             shown_total := List.length (vectors r);
             shown_methods := method_counts (vectors r);
             shown_lengths := stats_of (map magnitude (vectors r));
             shape_preserved :=
               if Rle_dec (stats_max (stats_of (map magnitude (vectors r))))
                          18
               then true else false;
             legend_elements := legend_of (method_counts (vectors r));
             saved_to := output_path path |})).
Proof.
  intros H.
  destruct (extract_motion_vectors_from_frame_inv cv2 self path r H)
    as [[_ ->] | (frame & fr & sb & all & Hread & _ & _ & ->)].
  - split; [reflexivity | intros Hn; now elim Hn].
  - unfold create_vector_visualization. simpl.
    destruct (fuse self sb all) as [| v rest]; split; try reflexivity.
    + intros Hn. now elim Hn.
    + discriminate.
    + intros _. now rewrite Hread.
Qed.

(** X18: for a result of the per-frame function and an unchanged
    directory, [create_vector_visualization] never raises a [KeyError];
    it returns [None] exactly when the result has no vectors (in
    particular for a result with [error]) and else saves, under the path
    derived from the frame path, a figure with one arrow per returned
    vector, in order, and with the count, distribution and length
    statistics of the result. *)
Theorem visualization_of_result
    (Image : Type) (cv2 : Cv2 Image) (output_path : string -> string)
    (self : MotionVectorExtractor) (path : string) (r : FrameResult) :
  extract_motion_vectors_from_frame cv2 self path = Ok r ->
  (vectors r = [] ->
   create_vector_visualization cv2 output_path r = Ok None)
  /\ (vectors r <> [] ->
      exists figure,
        create_vector_visualization cv2 output_path r = Ok (Some figure)
        /\ arrows figure = map arrow_of (vectors r)
        /\ map posA (arrows figure) = map center (vectors r)
        /\ shown_total figure = List.length (vectors r)
        /\ shown_methods figure = method_counts (vectors r)
        /\ shown_lengths figure = stats_of (map magnitude (vectors r))
        /\ saved_to figure = output_path path).
Proof.
  intros H.
  destruct (create_vector_visualization_of_result cv2 output_path self
              path r H) as [Hnil Hcons].
  split; [exact Hnil |]. intros Hne. eexists. split; [now apply Hcons |].
  simpl. repeat split. rewrite map_map. apply map_ext.
  intros v. unfold arrow_of. now destruct (center v), (direction v).
Qed.

Lemma visualization_of_result_witness :
  (vectors (success_result "frame_0001.png" 40 40 [seg_a; seg_b]) = [] ->
   create_vector_visualization (cv2_of folder) (fun p => p)
     (success_result "frame_0001.png" 40 40 [seg_a; seg_b]) = Ok None)
  /\ (vectors (success_result "frame_0001.png" 40 40 [seg_a; seg_b]) <> [] ->
      exists figure,
        create_vector_visualization (cv2_of folder) (fun p => p)
          (success_result "frame_0001.png" 40 40 [seg_a; seg_b])
        = Ok (Some figure)
        /\ arrows figure = map arrow_of [seg_a; seg_b]
        /\ map posA (arrows figure) = map center [seg_a; seg_b]
        /\ shown_total figure = 2%nat
        /\ shown_methods figure = method_counts [seg_a; seg_b]
        /\ shown_lengths figure = stats_of (map magnitude [seg_a; seg_b])
        /\ saved_to figure = "frame_0001.png"%string).
Proof.
  apply (visualization_of_result Frame (cv2_of folder) (fun p => p)
           (init false) "frame_0001.png").
  apply extract_two_segments.
Defined.

(** X19: for every returned vector the opacity of its arrow,
    [quality * confidence * 0.9], lies between 0 and 0.81; it gets a
    quality circle exactly when it is an FFmpeg arrow of the primary green
    range (confidence 0.9) with a quality above 8/9. *)
Theorem arrow_alpha_and_quality_circle
    (Image : Type) (cv2 : Cv2 Image) (self : MotionVectorExtractor)
    (path : string) (r : FrameResult) (v : Vector) :
  extract_motion_vectors_from_frame cv2 self path = Ok r ->
  In v (vectors r) ->
  0 <= alpha (arrow_of v) <= 0.81
  /\ (high_quality v = true
      <-> method v = ffmpeg /\ confidence v = 0.9 /\ quality v > 8 / 9).
Proof.
  intros H Hv.
  destruct (returned_vector_detected cv2 self path r v H Hv)
    as (u & Hu & Hq & Hc & Hm & _).
  destruct (detected_quality_confidence _ _ Hu) as [Hqr Hcr].
  pose proof (detected_method_confidence _ _ Hu) as Hmc.
  rewrite <- Hq, <- Hc, <- Hm in *. clear u Hu Hq Hc Hm.
  split.
  - unfold arrow_of. destruct (center v), (direction v). simpl.
    split; nra.
  - unfold high_quality.
    destruct (Rgt_dec (quality v * confidence v) 0.8) as [Hgt | Hle].
    + split; [intros _ | reflexivity].
      destruct Hmc as [[Hf [Hk | [Hk | Hk]]] | [[_ Hk] | [_ Hk]]];
        try (exfalso; nra).
      repeat split; try assumption. nra.
    + split; [discriminate |]. intros (_ & Hk & Hq). exfalso. nra.
Qed.

Lemma arrow_alpha_and_quality_circle_witness :
  0 <= alpha (arrow_of seg_a) <= 0.81
  /\ (high_quality seg_a = true
      <-> method seg_a = ffmpeg /\ confidence seg_a = 0.9
          /\ quality seg_a > 8 / 9).
Proof.
  apply (arrow_alpha_and_quality_circle Frame (cv2_of folder) (init false)
           "frame_0001.png"
           (success_result "frame_0001.png" 40 40 [seg_a; seg_b])).
  - apply extract_two_segments.
  - now left.
Defined.

Lemma has_key_In (counts : list (Method * nat)) (m : Method) :
  has_key counts m = true <-> exists c, In (m, c) counts.
Proof.
  unfold has_key. rewrite existsb_exists. split.
  - intros ([k c] & Hin & Hk). simpl in Hk. apply Method_eqb_eq in Hk.
    subst k. now exists c.
  - intros [c Hin]. exists (m, c). split; [exact Hin |].
    simpl. now apply Method_eqb_eq.
Qed.

Lemma get_In (counts : list (Method * nat)) (m : Method) (d : nat) :
  (exists c, In (m, c) counts) -> In (m, get counts m d) counts.
Proof.
  induction counts as [| [k n] rest IH]; simpl; intros [c Hin];
    [contradiction |].
  destruct (Method_eqb k m) eqn:Hk.
  - apply Method_eqb_eq in Hk. subst k. now left.
  - destruct Hin as [[= -> _] | Hin].
    + rewrite (proj2 (Method_eqb_eq m m) eq_refl) in Hk. discriminate.
    + right. apply IH. now exists c.
Qed.

Lemma get_missing (counts : list (Method * nat)) (m : Method) (d : nat) :
  has_key counts m = false -> get counts m d = d.
Proof.
  unfold has_key. induction counts as [| [k n] rest IH]; simpl;
    [reflexivity |].
  destruct (Method_eqb k m); simpl; [discriminate | exact IH].
Qed.

(** X20: the legend of a visualization lists, in the order FFmpeg, flow,
    edge, exactly the methods with at least one returned vector, each
    with the number of its vectors. *)
Theorem legend_lists_present_methods (final_vectors : list Vector) :
  legend_of (method_counts final_vectors)
  = flat_map (fun m => if (0 <? count_method m final_vectors)%nat
                       then [(m, count_method m final_vectors)] else [])
             [ffmpeg; flow; edge].
Proof.
  destruct (method_counts_from final_vectors []) as (Hget & _ & _ & Hpos).
  fold (method_counts final_vectors) in Hget, Hpos.
  assert (Hp : forall k c, In (k, c) (method_counts final_vectors) ->
                           (0 < c)%nat)
    by (apply Hpos; intros k c []).
  assert (Hkey : forall m,
             has_key (method_counts final_vectors) m
             = (0 <? count_method m final_vectors)%nat).
  { intros m. specialize (Hget m). simpl in Hget. rewrite <- Hget.
    destruct (has_key (method_counts final_vectors) m) eqn:Hk.
    - symmetry. apply Nat.ltb_lt. apply (Hp m).
      apply get_In. now apply has_key_In.
    - now rewrite (get_missing _ _ _ Hk). }
  unfold legend_of. apply flat_map_ext. intros m.
  rewrite Hkey. specialize (Hget m). simpl in Hget. now rewrite Hget.
Qed.

Lemma length_stats_max_bound {Image : Type} (cv2 : Cv2 Image)
    (self : MotionVectorExtractor) (path : string) (frame : Image)
    (r : FrameResult) :
  0 <= max_vector_length (params self) ->
  imread cv2 path = Some frame ->
  (Z.max (fst (shape cv2 frame)) (snd (shape cv2 frame)) <= 750)%Z ->
  extract_motion_vectors_from_frame cv2 self path = Ok r ->
  stats_max (stats_of (map magnitude (vectors r)))
  <= max_vector_length (params self).
Proof.
  intros Hmax Hread Hsize H.
  assert (Hk : length_factor (fst (shape cv2 frame))
                             (snd (shape cv2 frame)) <= 1).
  { unfold length_factor. destruct (600 <? _)%Z; [| lra].
    apply IZR_le in Hsize. lra. }
  assert (Hb : forall v, In v (vectors r) ->
               magnitude v <= max_vector_length (params self)).
  { intros v Hv.
    destruct (returned_length_bounds_aux cv2 self path frame r v
                Hmax Hread H Hv) as [_ [_ Hhi]].
    nra. }
  destruct (vectors r) as [| v rest]; simpl; [exact Hmax |].
  destruct (fold_left_Rmax_spec (map magnitude rest) (magnitude v))
    as [Hin _].
  change (magnitude v :: map magnitude rest)
    with (map magnitude (v :: rest)) in Hin.
  apply in_map_iff in Hin. destruct Hin as (u & Hu & Hin).
  rewrite <- Hu. now apply Hb.
Qed.

(** X21: with the maximum length 18 of [__init__], the visualization of
    the result of a frame whose longer side is at most 750 pixels carries
    the status "SHAPE PRESERVED". *)
Theorem visualization_shape_preserved
    (Image : Type) (cv2 : Cv2 Image) (output_path : string -> string)
    (self : MotionVectorExtractor) (path : string) (frame : Image)
    (r : FrameResult) (figure : Figure) :
  max_vector_length (params self) = 18 ->
  imread cv2 path = Some frame ->
  (Z.max (fst (shape cv2 frame)) (snd (shape cv2 frame)) <= 750)%Z ->
  extract_motion_vectors_from_frame cv2 self path = Ok r ->
  create_vector_visualization cv2 output_path r = Ok (Some figure) ->
  shape_preserved figure = true.
Proof.
  intros Hmax Hread Hsize H Hfig.
  assert (Hb : stats_max (stats_of (map magnitude (vectors r))) <= 18).
  { rewrite <- Hmax.
    apply (length_stats_max_bound cv2 self path frame r); auto.
    rewrite Hmax. lra. }
  destruct (create_vector_visualization_of_result cv2 output_path self
              path r H) as [Hnil Hcons].
  destruct (vectors r) as [| v rest] eqn:Hv.
  - rewrite (Hnil eq_refl) in Hfig. discriminate.
  - rewrite Hcons in Hfig by discriminate.
    injection Hfig as <-. simpl.
    destruct (Rle_dec _ 18); [reflexivity | contradiction].
Qed.

Lemma create_two_segments :
  exists figure,
    create_vector_visualization (cv2_of folder) (fun p => p)
      (success_result "frame_0001.png" 40 40 [seg_a; seg_b])
    = Ok (Some figure).
Proof.
  destruct (create_vector_visualization_of_result (cv2_of folder)
              (fun p => p) (init false) "frame_0001.png"
              (success_result "frame_0001.png" 40 40 [seg_a; seg_b])
              extract_two_segments) as [_ Hcons].
  eexists. apply Hcons. discriminate.
Qed.

Lemma visualization_shape_preserved_witness :
  exists figure,
    create_vector_visualization (cv2_of folder) (fun p => p)
      (success_result "frame_0001.png" 40 40 [seg_a; seg_b])
    = Ok (Some figure)
    /\ shape_preserved figure = true.
Proof.
  destruct create_two_segments as [figure Hfig].
  exists figure. split; [exact Hfig |].
  apply (visualization_shape_preserved Frame (cv2_of folder) (fun p => p)
           (init false) "frame_0001.png" two_segments
           (success_result "frame_0001.png" 40 40 [seg_a; seg_b]) figure).
  - reflexivity.
  - reflexivity.
  - simpl. lia.
  - apply extract_two_segments.
  - exact Hfig.
Defined.

(** X22: in [main], after a batch that returned, the loop over the
    results does not raise and creates one visualization for each result
    with at least one vector, and none for the others; so there are at
    most as many visualizations as frames. *)
Theorem visualizations_of_batch
    (Image : Type) (cv2 : Cv2 Image) (output_path : string -> string)
    (self : MotionVectorExtractor) (frame_paths : list string)
    (results : list FrameResult) :
  process_all_frames cv2 self frame_paths = Ok results ->
  exists created,
    created_visualizations cv2 output_path results = Ok created
    /\ List.length created
       = List.length (filter (fun r => match vectors r with
                                       | [] => false
                                       | _ :: _ => true
                                       end) results)
    /\ (List.length created <= List.length frame_paths)%nat.
Proof.
  intros H. apply process_all_frames_Forall2 in H.
  assert (Hc : exists created,
             created_visualizations cv2 output_path results = Ok created
             /\ List.length created
                = List.length (filter (fun r => match vectors r with
                                                | [] => false
                                                | _ :: _ => true
                                                end) results)).
  { unfold created_visualizations.
    induction H as [| path r paths rs Hr _ IH].
    - exists []. split; reflexivity.
    - destruct IH as (created & Hcreated & Hlen).
      destruct (create_vector_visualization_of_result cv2 output_path self
                  path r Hr) as [Hnil Hcons].
      cbn [for_extend]. rewrite Hcreated.
      destruct (vectors r) as [| v rest] eqn:Hv.
      + exists created. cbn [filter]. rewrite Hv. split; [| exact Hlen].
        destruct (no_error r); [| reflexivity].
        now rewrite (Hnil eq_refl).
      + assert (Hne : no_error r = true).
        { destruct (extract_motion_vectors_from_frame_inv cv2 self path r Hr)
            as [[_ ->] | (frame & fr & sb & all & _ & _ & _ & ->)];
            [discriminate | reflexivity]. }
        rewrite Hne, Hcons by discriminate. cbn [bind].
        eexists. split; [reflexivity |].
        cbn [filter]. rewrite Hv. simpl. now rewrite Hlen. }
  destruct Hc as (created & Hcreated & Hlen).
  exists created. split; [exact Hcreated | split; [exact Hlen |]].
  rewrite Hlen, (Forall2_length H). apply filter_length_le.
Qed.

Lemma visualizations_of_batch_witness :
  exists created,
    created_visualizations (cv2_of folder) (fun p => p)
      [success_result "frame_0001.png" 40 40 [seg_a; seg_b]] = Ok created
    /\ List.length created = 1%nat
    /\ (List.length created <= 1)%nat.
Proof.
  apply (visualizations_of_batch Frame (cv2_of folder) (fun p => p)
           (init false) ["frame_0001.png"%string]).
  apply process_folder.
Defined.

(** * The order before the deduplication *)








(** * Lowering a threshold *)

Lemma ForallOrdPairs_app_In {A : Type} (P : A -> A -> Prop)
    (l1 l2 : list A) (a b : A) :
  ForallOrdPairs P (l1 ++ l2) -> In a l1 -> In b l2 -> P a b.
Proof.
  induction l1 as [| x l1 IH]; simpl; intros H Ha Hb; [contradiction |].
  inversion H as [| ? ? Hx Hrest]; subst.
  destruct Ha as [-> | Ha]; [| now apply IH].
  rewrite Forall_forall in Hx. apply Hx, in_app_iff. now right.
Qed.

(** Below the cap every scored detection has an accepted one within the
    deduplication distance that stands no later in the order of the
    scored list. *)
Lemma remove_duplicates_from_covers_ordered (P : Vector -> Vector -> Prop)
    (n : nat) (scored : list (R * Vector)) (final_vectors : list Vector)
    (s : R) (v : Vector) :
  (forall x, P x x) ->
  ForallOrdPairs P (final_vectors ++ map snd scored) ->
  (List.length (remove_duplicates_from n scored final_vectors) < n)%nat ->
  In (s, v) scored ->
  exists w,
    In w (remove_duplicates_from n scored final_vectors)
    /\ dist (center v) (center w) < 15
    /\ P w v.
Proof.
  intros Hrefl. revert final_vectors.
  induction scored as [| [s0 v0] rest IH]; simpl; intros fin Hord Hlen Hin;
    [contradiction |].
  destruct (is_duplicate v0 fin) eqn:Hdup.
  - destruct Hin as [[= -> ->] | Hin].
    + destruct (is_duplicate_true _ _ Hdup) as (e & He & Hd).
      exists e. split; [now apply remove_duplicates_from_keeps |].
      split; [exact Hd |].
      apply (ForallOrdPairs_app_In P fin (v :: map snd rest));
        [exact Hord | exact He | now left].
    + apply IH; [| exact Hlen | exact Hin].
      apply (subseq_ForallOrdPairs P _ _ (subseq_app_skip fin _ v0) Hord).
  - assert (Hord' : ForallOrdPairs P ((fin ++ [v0]) ++ map snd rest))
      by now rewrite <- app_assoc.
    destruct (n <=? List.length (fin ++ [v0]))%nat eqn:Hcap.
    + apply Nat.leb_le in Hcap. lia.
    + destruct Hin as [[= -> ->] | Hin]; [| now apply IH].
      exists v. split.
      * apply remove_duplicates_from_keeps, in_app_iff. right. now left.
      * split; [| apply Hrefl].
        rewrite dist_same_center by reflexivity. lra.
Qed.

Lemma scored_vectors_descending (l : list Vector) :
  ForallOrdPairs
    (fun a b => quality a * confidence a >= quality b * confidence b)
    (map snd (scored_vectors l)).
Proof.
  apply ForallOrdPairs_map
    with (P := fun a b =>
                 fst a >= fst b
                 /\ fst a = quality (snd a) * confidence (snd a)
                 /\ fst b = quality (snd b) * confidence (snd b)).
  - intros a b (Hge & Ha & Hb). now rewrite <- Ha, <- Hb.
  - apply ForallOrdPairs_and_Forall.
    + apply sort_reverse_descending.
    + apply scored_vectors_score.
Qed.

(** C2, as amended: lowering [quality_threshold] or
    [confidence_threshold] never removes a previously accepted vector
    without a replacement: a vector that is returned under the higher
    thresholds still passes the filter under the lower ones, and, unless
    the lower-threshold result has reached [max_vectors_per_frame], that
    result holds a vector (the vector itself, or the one that made it a
    duplicate) whose center is less than 15 pixels from its center and
    whose score is at least its score. *)
Theorem accepted_vector_stays_covered
    (Image : Type) (cv2 : Cv2 Image) (self : MotionVectorExtractor)
    (qt ct : R) (path : string) (r_high r_low : FrameResult) (v : Vector) :
  qt <= quality_threshold (params self) ->
  ct <= confidence_threshold (params self) ->
  extract_motion_vectors_from_frame cv2 self path = Ok r_high ->
  extract_motion_vectors_from_frame cv2 (with_thresholds self qt ct) path
  = Ok r_low ->
  In v (vectors r_high) ->
  (List.length (vectors r_low) < max_vectors_per_frame (params self))%nat ->
  quality v >= qt /\ confidence v >= ct
  /\ exists w,
      In w (vectors r_low)
      /\ dist (center v) (center w) < 15
      /\ quality w * confidence w >= quality v * confidence v.
Proof.
  intros Hq Hc Hhigh Hlow Hv Hlen.
  destruct (extract_motion_vectors_from_frame_inv cv2 self path r_high Hhigh)
    as [[_ ->] | (frame & fr & sb & all & Hread & Hres & Hall & ->)];
    [contradiction |].
  destruct (extract_motion_vectors_from_frame_inv cv2 _ path r_low Hlow)
    as [[Hnone _] | (frame' & fr' & sb' & all' & Hread' & Hres' & Hall' & ->)];
    [congruence |].
  rewrite Hread in Hread'. injection Hread' as <-.
  rewrite Hres in Hres'. injection Hres' as <- <-.
  rewrite all_methods_with_thresholds, Hall in Hall'.
  injection Hall' as <-.
  simpl in Hv, Hlen |- *.
  unfold fuse, remove_duplicates in Hv.
  apply remove_duplicates_from_In in Hv. destruct Hv as [[] | [s Hs]].
  apply scored_vectors_In in Hs.
  destruct (filtered_vectors_monotone Image cv2 self qt ct fr sb all v
              Hq Hc Hall Hs) as [_ Hlowv].
  destruct (filter_vectors_In _ _ _ Hlowv) as (_ & Hvq & Hvc).
  simpl in Hvq, Hvc.
  split; [exact Hvq | split; [exact Hvc |]].
  unfold fuse, remove_duplicates in *. simpl in *.
  apply (remove_duplicates_from_covers_ordered
           (fun a b => quality a * confidence a
                       >= quality b * confidence b)
           _ _ [] (quality v * confidence v) v).
  - intros x. lra.
  - simpl. apply scored_vectors_descending.
  - exact Hlen.
  - unfold scored_vectors. apply sort_reverse_In, in_map_iff.
    now exists v.
Qed.

Lemma accepted_vector_stays_covered_witness :
  quality seg_a >= 0.2 /\ confidence seg_a >= 0.4
  /\ exists w,
      In w (vectors (success_result "arrow.png" 40 40 [arrow 0.9]))
      /\ dist (center seg_a) (center w) < 15
      /\ quality w * confidence w >= quality seg_a * confidence seg_a.
Proof.
  apply (accepted_vector_stays_covered Frame (cv2_of arrow_folder)
           (init false) 0.2 0.4 "arrow.png"
           (success_result "arrow.png" 40 40 [seg_a])
           (success_result "arrow.png" 40 40 [arrow 0.9]) seg_a).
  - simpl. lra.
  - simpl. lra.
  - rewrite extract_arrow_on_segment by now left.
    now rewrite fuse_arrow_on_segment_high.
  - rewrite extract_arrow_on_segment by now right.
    now rewrite fuse_arrow_on_segment_low.
  - now left.
  - simpl. lia.
Defined.

(** * Construction and the thresholds *)


Section ParametersAndExceptions.

Context {Image : Type}.
Variable cv2 : Cv2 Image.
Variables self1 self2 : MotionVectorExtractor.




End ParametersAndExceptions.



